(** * s3_debug.py: the URL resolver and the probe sequence

    A shallow embedding of [src/s3_debug.py].  Python [str] values are
    modelled by [string]; every separator the program looks for is ASCII.
    Exceptions are values of [exn]; a computation that may raise returns
    [res].  The probes run in a writer monad that records console output
    and remote calls in the order in which they happen. *)

From Stdlib Require Import List String Ascii Bool Arith NArith DecimalString Lia.
Import ListNotations.
Open Scope list_scope.
Open Scope string_scope.
Open Scope nat_scope.

(** ** Exceptions and fallible results *)

(** [str(e)] and [e.response['Error']['Code']] of a botocore [ClientError];
    the code is [None] when the response dict has no such entry. *)
Record ClientError := mkClientError {
  err_code : option string;
  err_str : string
}.

Inductive exn :=
| ValueError
| IndexError
| KeyError
| ClientErrorExn (e : ClientError)
| OtherException (name : string).

Inductive res (A : Type) :=
| Ok (a : A)
| Raise (x : exn).
Arguments Ok {A} a.
Arguments Raise {A} x.

Definition res_bind {A B} (m : res A) (k : A -> res B) : res B :=
  match m with
  | Ok a => k a
  | Raise x => Raise x
  end.

Declare Scope res_scope.
Delimit Scope res_scope with res.
Notation "x <- m ;; k" := (res_bind m (fun x => k))
  (at level 61, m at next level, right associativity) : res_scope.
Notation "' pat <- m ;; k" :=
  (res_bind m (fun x => match x with pat => k end))
  (at level 61, pat pattern, m at next level, right associativity) : res_scope.

(** ** Python string and list primitives *)

Module PyStr.

(** [s.startswith(p)] *)
Fixpoint startswith (p s : string) : bool :=
  match p, s with
  | EmptyString, _ => true
  | String a p', String b s' => Ascii.eqb a b && startswith p' s'
  | String _ _, EmptyString => false
  end.

(** [sub in s] *)
Fixpoint contains (sub s : string) : bool :=
  startswith sub s ||
  match s with
  | EmptyString => false
  | String _ s' => contains sub s'
  end.

(** [s[:n]] and [s[n:]] for [n >= 0] *)
Fixpoint take (n : nat) (s : string) : string :=
  match n, s with
  | S n', String c s' => String c (take n' s')
  | _, _ => EmptyString
  end.

Fixpoint drop (n : nat) (s : string) : string :=
  match n, s with
  | S n', String _ s' => drop n' s'
  | _, _ => s
  end.

(** Put a character in front of the first piece of a split. *)
Definition cons_head (c : ascii) (l : list string) : list string :=
  match l with
  | p :: ps => String c p :: ps
  | [] => [String c EmptyString]
  end.

Definition may_split (maxsplit : option nat) : bool :=
  match maxsplit with
  | Some 0 => false
  | _ => true
  end.

Definition one_less (maxsplit : option nat) : option nat :=
  option_map pred maxsplit.

(** [s.split(sep, maxsplit)] for a non-empty [sep]: a left-to-right scan for
    non-overlapping occurrences.  [maxsplit = None] is Python's default [-1]
    (no limit).  [skip] counts the characters of a separator just matched that
    are still to be passed over.  Python raises [ValueError] for an empty
    separator; the program only passes non-empty literals. *)
Fixpoint split_from (sep : string) (maxsplit : option nat) (skip : nat)
         (s : string) : list string :=
  match s with
  | EmptyString => [EmptyString]
  | String c s' =>
    match skip with
    | S k => split_from sep maxsplit k s'
    | O =>
      if may_split maxsplit && startswith sep s
      then EmptyString :: split_from sep (one_less maxsplit) (String.length sep - 1) s'
      else cons_head c (split_from sep maxsplit 0 s')
    end
  end.

Definition splitn (sep : string) (maxsplit : option nat) (s : string) : list string :=
  split_from sep maxsplit 0 s.

Definition split (sep s : string) : list string := splitn sep None s.

(** [sep.join(l)] *)
Fixpoint join (sep : string) (l : list string) : string :=
  match l with
  | [] => EmptyString
  | [x] => x
  | x :: xs => x ++ sep ++ join sep xs
  end.

(** [c in chars] for a single character [c] *)
Fixpoint char_in (c : ascii) (chars : string) : bool :=
  match chars with
  | EmptyString => false
  | String d chars' => Ascii.eqb c d || char_in c chars'
  end.

(** [s.lstrip(chars)]: drops every leading character that occurs in [chars] *)
Fixpoint lstrip (chars s : string) : string :=
  match s with
  | EmptyString => EmptyString
  | String c s' => if char_in c chars then lstrip chars s' else s
  end.

(** [s.replace(old, new)] for a non-empty [old] *)
Definition replace (old new s : string) : string := join new (split old s).

(** [s.find(sub, start)]: [None] stands for Python's [-1] *)
Fixpoint find_at (sub s : string) (pos : nat) : option nat :=
  if startswith sub s then Some pos
  else match s with
       | EmptyString => None
       | String _ s' => find_at sub s' (S pos)
       end.

Definition find (sub s : string) (start : nat) : option nat :=
  if Nat.ltb (String.length s) start then None else find_at sub (drop start s) start.

(** [s.rfind(sub)] *)
Fixpoint rfind_at (sub s : string) (pos : nat) : option nat :=
  match s with
  | EmptyString => if startswith sub s then Some pos else None
  | String _ s' =>
    match rfind_at sub s' (S pos) with
    | Some i => Some i
    | None => if startswith sub s then Some pos else None
    end
  end.

Definition rfind (sub s : string) : option nat := rfind_at sub s 0.

(** [l[i]] for [i >= 0], [l[-1]] and [l[:-1]] *)
Definition getitem {A} (l : list A) (i : nat) : res A :=
  match nth_error l i with
  | Some a => Ok a
  | None => Raise IndexError
  end.

Fixpoint getitem_last {A} (l : list A) : res A :=
  match l with
  | [] => Raise IndexError
  | [a] => Ok a
  | _ :: l' => getitem_last l'
  end.

Definition drop_last {A} (l : list A) : list A := removelast l.

End PyStr.

Import PyStr.


(** ** urllib.parse, as far as [urlparse(url).path] depends on it

    Modelled on CPython's [urllib/parse.py] for [str] arguments and the
    default [scheme=''] and [allow_fragments=True].  Two validation routines
    of the library are not unfolded: the check of a bracketed (IPv6 or
    IPvFuture) host, and the NFKC check of a non-ASCII authority.  Both only
    decide whether [ValueError] is raised, and are the fields of [Checks]. *)

Module Urllib.

Record Checks := mkChecks {
  bracketed_netloc_ok : string -> bool;
  nfkc_netloc_ok : string -> bool
}.

Definition chr (n : nat) : string := String (ascii_of_nat n) EmptyString.

Definition _WHATWG_C0_CONTROL_OR_SPACE : string :=
  string_of_list_ascii (map ascii_of_nat (seq 0 33)).

Definition _UNSAFE_URL_BYTES_TO_REMOVE : list string := [chr 9; chr 13; chr 10].

Definition scheme_chars : string :=
  "abcdefghijklmnopqrstuvwxyzABCDEFGHIJKLMNOPQRSTUVWXYZ0123456789+-.".

Definition uses_params : list string :=
  [""; "ftp"; "hdl"; "prospero"; "http"; "imap"; "https"; "shttp"; "rtsp";
   "rtspu"; "sip"; "sips"; "mms"; "sftp"; "tel"].

Definition isascii (c : ascii) : bool := nat_of_ascii c <? 128.

Definition isupper (c : ascii) : bool :=
  (65 <=? nat_of_ascii c) && (nat_of_ascii c <=? 90).

(** [c.isalpha()] for a character that passed [isascii] *)
Definition isalpha (c : ascii) : bool :=
  isupper c || ((97 <=? nat_of_ascii c) && (nat_of_ascii c <=? 122)).

Fixpoint all_chars (p : ascii -> bool) (s : string) : bool :=
  match s with
  | EmptyString => true
  | String c s' => p c && all_chars p s'
  end.

Definition lower_char (c : ascii) : ascii :=
  if isupper c then ascii_of_nat (nat_of_ascii c + 32) else c.

Fixpoint lower (s : string) : string :=
  match s with
  | EmptyString => EmptyString
  | String c s' => String (lower_char c) (lower s')
  end.

Definition str_in (s : string) (l : list string) : bool :=
  existsb (String.eqb s) l.

(** [a, b = l] *)
Definition unpack2 (l : list string) : res (string * string) :=
  match l with
  | [a; b] => Ok (a, b)
  | _ => Raise ValueError
  end.

Record SplitResult := mkSplitResult {
  split_scheme : string;
  split_netloc : string;
  split_path : string;
  split_query : string;
  split_fragment : string
}.

Record ParseResult := mkParseResult {
  scheme : string;
  netloc : string;
  path : string;
  params : string;
  query : string;
  fragment : string
}.

Definition _splitnetloc (url : string) (start : nat) : string * string :=
  let delim :=
    fold_left
      (fun delim c =>
         match find c url start with
         | Some wdelim => Nat.min delim wdelim
         | None => delim
         end)
      ["/"; "?"; "#"] (String.length url) in
  (take (delim - start) (drop start url), drop delim url).

Definition _checknetloc (lib : Checks) (netloc : string) : res unit :=
  if (netloc =? "")%string || all_chars isascii netloc then Ok tt
  else if nfkc_netloc_ok lib netloc then Ok tt
  else Raise ValueError.

Definition split_scheme_off (url : string) : string * string :=
  match find ":" url 0, url with
  | Some (S i'), String c0 _ =>
    let i := S i' in
    if isascii c0 && isalpha c0
       && all_chars (fun c => char_in c scheme_chars) (take i url)
    then (lower (take i url), drop (i + 1) url)
    else (EmptyString, url)
  | _, _ => (EmptyString, url)
  end.

Definition split_authority (lib : Checks) (url : string) : res (string * string) :=
  if (take 2 url =? "//")%string then
    let '(netloc, rest) := _splitnetloc url 2 in
    let lb := contains "[" netloc in
    let rb := contains "]" netloc in
    if (lb && negb rb) || (rb && negb lb) then Raise ValueError
    else if lb && rb && negb (bracketed_netloc_ok lib netloc) then Raise ValueError
    else Ok (netloc, rest)
  else Ok (EmptyString, url).

Definition urlsplit (lib : Checks) (url : string) : res SplitResult :=
  (let url := lstrip _WHATWG_C0_CONTROL_OR_SPACE url in
   let url := fold_left (fun u b => replace b "" u) _UNSAFE_URL_BYTES_TO_REMOVE url in
   let '(scheme, url) := split_scheme_off url in
   '(netloc, url) <- split_authority lib url ;;
   '(url, fragment) <-
     (if contains "#" url then unpack2 (splitn "#" (Some 1) url)
      else Ok (url, EmptyString)) ;;
   '(url, query) <-
     (if contains "?" url then unpack2 (splitn "?" (Some 1) url)
      else Ok (url, EmptyString)) ;;
   _ <- _checknetloc lib netloc ;;
   Ok (mkSplitResult scheme netloc url query fragment))%res.

Definition _splitparams (url : string) : string * string :=
  if contains "/" url then
    match find ";" url (match rfind "/" url with Some r => r | None => 0 end) with
    | None => (url, EmptyString)
    | Some i => (take i url, drop (i + 1) url)
    end
  else
    match find ";" url 0 with
    | Some i => (take i url, drop (i + 1) url)
    | None => (take (String.length url - 1) url, url)
    end.

Definition urlparse (lib : Checks) (url : string) : res ParseResult :=
  (r <- urlsplit lib url ;;
   let '(url, params) :=
     if str_in (split_scheme r) uses_params && contains ";" (split_path r)
     then _splitparams (split_path r)
     else (split_path r, EmptyString) in
   Ok (mkParseResult (split_scheme r) (split_netloc r) url params
                     (split_query r) (split_fragment r)))%res.

End Urllib.

Import Urllib.

(** ** The URL resolver *)

Definition extract_bucket_and_key (lib : Checks) (url : string) : res (string * string) :=
  (if contains ".s3." url then
     p <- getitem (split ".s3." url) 0 ;;
     bucket <- getitem_last (split "/" p) ;;
     t <- getitem_last (split ".amazonaws.com/" url) ;;
     let key := join "/" (split "/" t) in
     Ok (bucket, key)
   else
     r <- urlparse lib url ;;
     let parts := splitn "/" (Some 1) (lstrip "/" (path r)) in
     bucket <- getitem parts 0 ;;
     key <- (if 1 <? List.length parts then getitem parts 1 else Ok EmptyString) ;;
     Ok (bucket, key))%res.


(** ** Console, session and storage client

    The two external collaborators.  [console.print] and the remote calls of
    the boto3 client are recorded as events; what a remote call answers is
    given by a [Service], which may answer differently for differently
    configured clients. *)

Record Session := mkSession { profile_name : option string }.

Record Client := mkClient {
  client_session : Session;
  service_name : string;
  region_name : option string
}.

(** [session.client(service, region_name=region)] *)
Definition client (session : Session) (service : string) (region : option string) : Client :=
  mkClient session service region.

Inductive Operation :=
| HeadBucket (Bucket : string)
| GetBucketLocation (Bucket : string)
| HeadObject (Bucket Key : string)
| ListObjectsV2 (Bucket Prefix : string) (MaxKeys : nat)
| GetBucketPolicy (Bucket : string)
| GetBucketAcl (Bucket : string).

Record S3Object := mkS3Object {
  obj_Key : string;
  obj_Size : N;
  obj_LastModified : string   (* [str] of the timestamp *)
}.

Record Grant := mkGrant {
  grantee_DisplayName : option string;
  grant_Permission : string
}.

(** The answers of the storage service: a payload, or an exception raised by
    the client ([ClientErrorExn] for an error response). *)
Record Service := mkService {
  head_bucket : Client -> string -> res unit;
  (* ['LocationConstraint'], [None] when null or absent *)
  get_bucket_location : Client -> string -> res (option string);
  (* the items of the response dict, values as printed *)
  head_object : Client -> string -> string -> res (list (string * string));
  (* ['Contents'] when present *)
  list_objects_v2 : Client -> string -> string -> nat -> res (option (list S3Object));
  (* ['Policy'] *)
  get_bucket_policy : Client -> string -> res string;
  (* ['Grants'] *)
  get_bucket_acl : Client -> string -> res (list Grant)
}.

Inductive event :=
| Print (text : string)
| PrintTable (columns : list string) (rows : list (list string))
| Call (c : Client) (op : Operation).

(** A run: the events so far, and a value or the exception that ended it. *)
Definition Run (A : Type) : Type := list event * res A.

Definition ret {A} (a : A) : Run A := ([], Ok a).

Definition bind {A B} (m : Run A) (k : A -> Run B) : Run B :=
  match m with
  | (t, Ok a) => let (t', r) := k a in ((t ++ t')%list, r)
  | (t, Raise x) => (t, Raise x)
  end.

Declare Scope run_scope.
Delimit Scope run_scope with run.
Notation "x <- m ;; k" := (bind m (fun x => k))
  (at level 61, m at next level, right associativity) : run_scope.
Notation "' pat <- m ;; k" :=
  (bind m (fun x => match x with pat => k end))
  (at level 61, pat pattern, m at next level, right associativity) : run_scope.
Notation "m ;;; k" := (bind m (fun _ => k))
  (at level 61, right associativity) : run_scope.

Definition lift {A} (r : res A) : Run A := ([], r).

Definition print (text : string) : Run unit := ([Print text], Ok tt).

Definition print_table (columns : list string) (rows : list (list string)) : Run unit :=
  ([PrintTable columns rows], Ok tt).

Definition remote {A} (c : Client) (op : Operation) (answer : res A) : Run A :=
  ([Call c op], answer).

(** [try: body  except ClientError as e: handler] *)
Definition try_except {A} (body : Run A) (handler : ClientError -> Run A) : Run A :=
  match body with
  | (t, Raise (ClientErrorExn e)) => let (t', r) := handler e in ((t ++ t')%list, r)
  | _ => body
  end.

Fixpoint for_each {A} (l : list A) (body : A -> Run unit) : Run unit :=
  match l with
  | [] => ret tt
  | a :: l' => bind (body a) (fun _ => for_each l' body)
  end.

Definition trace {A} (m : Run A) : list event := fst m.
Definition outcome {A} (m : Run A) : res A := snd m.

(** The remote calls of a trace, in order. *)
Fixpoint calls (t : list event) : list (Client * Operation) :=
  match t with
  | [] => []
  | Call c op :: t' => (c, op) :: calls t'
  | _ :: t' => calls t'
  end.

Definition nl : string := String (ascii_of_nat 10) EmptyString.

(** Truth value of an optional string, [x or default], and [f"{x}"]. *)
Definition truthy (x : option string) : bool :=
  match x with
  | Some s => negb (s =? "")%string
  | None => false
  end.

Definition or_default (x : option string) (default : string) : string :=
  if truthy x then match x with Some s => s | None => default end else default.

Definition fmt (x : option string) : string :=
  match x with
  | Some s => s
  | None => "None"
  end.

Definition opt_eqb (x y : option string) : bool :=
  match x, y with
  | Some a, Some b => (a =? b)%string
  | None, None => true
  | _, _ => false
  end.

Definition str_N (n : N) : string := NilEmpty.string_of_uint (N.to_uint n).

(** ** The probes *)

Definition check_bucket_exists (s3 : Service) (s3_client : Client) (bucket : string) : Run bool :=
  try_except
    (remote s3_client (HeadBucket bucket) (head_bucket s3 s3_client bucket) ;;;
     ret true)%run
    (fun e =>
       let error_code := match err_code e with Some c => c | None => "Unknown" end in
       (if (error_code =? "404")%string then
          print ("[red]Bucket " ++ bucket ++ " does not exist[/red]")
        else if (error_code =? "403")%string then
          print ("[yellow]Access denied to bucket " ++ bucket ++ "[/yellow]")
        else
          print ("[red]Error checking bucket: " ++ err_str e ++ "[/red]")) ;;;
       ret false)%run.

Definition check_object_metadata (s3 : Service) (s3_client : Client) (bucket key : string) : Run bool :=
  try_except
    (metadata <- remote s3_client (HeadObject bucket key) (head_object s3 s3_client bucket key) ;;
     print "[green]Object metadata found:[/green]" ;;;
     for_each metadata
       (fun '(k, v) =>
          if negb (k =? "ResponseMetadata")%string then print (k ++ ": " ++ v)
          else ret tt) ;;;
     ret true)%run
    (fun e =>
       print ("[red]Could not get object metadata: " ++ err_str e ++ "[/red]") ;;;
       ret false)%run.

(** [prefix = '/'.join(key.split('/')[:-1])] *)
Definition listing_prefix (key : string) : string :=
  join "/" (drop_last (split "/" key)).

Definition list_similar_objects (s3 : Service) (s3_client : Client) (bucket key : string) : Run unit :=
  let prefix := listing_prefix key in
  try_except
    (response <- remote s3_client (ListObjectsV2 bucket prefix 10)
                        (list_objects_v2 s3 s3_client bucket prefix 10) ;;
     match response with
     | Some contents =>
       print (nl ++ "[green]Found similar objects:[/green]") ;;;
       print_table ["Key"; "Size"; "Last Modified"]
         (map (fun obj => [obj_Key obj; str_N (obj_Size obj); obj_LastModified obj]) contents)
     | None =>
       print ("[yellow]No objects found with prefix: " ++ prefix ++ "[/yellow]")
     end)%run
    (fun e => print ("[red]Error listing objects: " ++ err_str e ++ "[/red]")).

Definition check_bucket_policy (s3 : Service) (s3_client : Client) (bucket : string) : Run unit :=
  try_except
    (policy <- remote s3_client (GetBucketPolicy bucket) (get_bucket_policy s3 s3_client bucket) ;;
     print "[green]Bucket policy found:[/green]" ;;;
     print policy)%run
    (fun e =>
       match err_code e with
       | None => lift (Raise KeyError)
       | Some code =>
         if (code =? "NoSuchBucketPolicy")%string then
           print "[yellow]No bucket policy found[/yellow]"
         else
           print ("[red]Error getting bucket policy: " ++ err_str e ++ "[/red]")
       end).

Definition check_bucket_location (s3 : Service) (s3_client : Client) (bucket : string) : Run (option string) :=
  try_except
    (location <- remote s3_client (GetBucketLocation bucket)
                        (get_bucket_location s3 s3_client bucket) ;;
     let region := or_default location "us-east-1" in
     print ("[green]Bucket region: " ++ region ++ "[/green]") ;;;
     ret (Some region))%run
    (fun e =>
       print ("[red]Error getting bucket location: " ++ err_str e ++ "[/red]") ;;;
       ret None)%run.

(** The ACL probe is the last block of [debug_s3_access]. *)
Definition check_bucket_acl (s3 : Service) (s3_client : Client) (bucket : string) : Run unit :=
  try_except
    (acl <- remote s3_client (GetBucketAcl bucket) (get_bucket_acl s3 s3_client bucket) ;;
     print (nl ++ "[green]Bucket ACL:[/green]") ;;;
     for_each acl
       (fun grant =>
          print ("- Grantee: " ++
                 match grantee_DisplayName grant with Some n => n | None => "Unknown" end) ;;;
          print ("  Permission: " ++ grant_Permission grant)))%run
    (fun e => print ("[red]Error getting bucket ACL: " ++ err_str e ++ "[/red]")).

(** ** The orchestrator *)

Definition debug_s3_access (lib : Checks) (s3 : Service)
           (url : string) (profile region : option string) : Run unit :=
  ('(bucket, key) <- lift (extract_bucket_and_key lib url) ;;
   print ("[bold]Analyzing URL: " ++ url ++ "[/bold]") ;;;
   print ("Bucket: " ++ bucket) ;;;
   print ("Key: " ++ key ++ nl) ;;;
   let session := mkSession profile in
   let s3_client := client session "s3" region in
   exists_ <- check_bucket_exists s3 s3_client bucket ;;
   if negb exists_ then ret tt
   else
     actual_region <- check_bucket_location s3 s3_client bucket ;;
     s3_client <-
       (if truthy actual_region && truthy region && negb (opt_eqb actual_region region)
        then
          print ("[yellow]Warning: Specified region " ++ fmt region ++
                 " differs from bucket region " ++ fmt actual_region ++ "[/yellow]") ;;;
          ret (client session "s3" actual_region)
        else ret s3_client) ;;
     check_object_metadata s3 s3_client bucket key ;;;
     list_similar_objects s3 s3_client bucket key ;;;
     check_bucket_policy s3 s3_client bucket ;;;
     check_bucket_acl s3 s3_client bucket)%run.

(** ** The run with a console and an SDK that can fail

    [console.print] renders its text as markup and raises on text that it
    cannot render; [boto3.Session] and [session.client] raise on a profile or
    a configuration that they reject.  A [Runtime] says which texts, tables,
    profiles and client configurations are rejected, and with what exception;
    the definitions of [Live] are the functions of the program once more, with
    these calls failing as the runtime says.  The definitions above are the
    case of a runtime that rejects nothing.  An exception of the console is
    not a [ClientError], so no handler of the program catches it. *)

Record Runtime := mkRuntime {
  (* the exception that [console.print(text)] raises, by name *)
  print_raises : string -> option string;
  (* the exception that [console.print(table)] raises, by name *)
  table_raises : list string -> list (list string) -> option string;
  (* the exception that [boto3.Session(profile_name=profile)] raises *)
  session_raises : option string -> option exn;
  (* the exception that [session.client(service, region_name=region)] raises *)
  client_raises : Session -> string -> option string -> option exn
}.

Module Live.

Definition print (rt : Runtime) (text : string) : Run unit :=
  match print_raises rt text with
  | Some name => ([], Raise (OtherException name))
  | None => ([Print text], Ok tt)
  end.

Definition print_table (rt : Runtime) (columns : list string) (rows : list (list string)) :
  Run unit :=
  match table_raises rt columns rows with
  | Some name => ([], Raise (OtherException name))
  | None => ([PrintTable columns rows], Ok tt)
  end.

(** [boto3.Session(profile_name=profile)] *)
Definition boto3_Session (rt : Runtime) (profile : option string) : Run Session :=
  match session_raises rt profile with
  | Some x => ([], Raise x)
  | None => ret (mkSession profile)
  end.

(** [session.client(service, region_name=region)] *)
Definition client (rt : Runtime) (session : Session) (service : string)
           (region : option string) : Run Client :=
  match client_raises rt session service region with
  | Some x => ([], Raise x)
  | None => ret (mkClient session service region)
  end.

Definition check_bucket_exists (rt : Runtime) (s3 : Service) (s3_client : Client)
           (bucket : string) : Run bool :=
  try_except
    (remote s3_client (HeadBucket bucket) (head_bucket s3 s3_client bucket) ;;;
     ret true)%run
    (fun e =>
       let error_code := match err_code e with Some c => c | None => "Unknown" end in
       (if (error_code =? "404")%string then
          print rt ("[red]Bucket " ++ bucket ++ " does not exist[/red]")
        else if (error_code =? "403")%string then
          print rt ("[yellow]Access denied to bucket " ++ bucket ++ "[/yellow]")
        else
          print rt ("[red]Error checking bucket: " ++ err_str e ++ "[/red]")) ;;;
       ret false)%run.

Definition check_object_metadata (rt : Runtime) (s3 : Service) (s3_client : Client)
           (bucket key : string) : Run bool :=
  try_except
    (metadata <- remote s3_client (HeadObject bucket key) (head_object s3 s3_client bucket key) ;;
     print rt "[green]Object metadata found:[/green]" ;;;
     for_each metadata
       (fun '(k, v) =>
          if negb (k =? "ResponseMetadata")%string then print rt (k ++ ": " ++ v)
          else ret tt) ;;;
     ret true)%run
    (fun e =>
       print rt ("[red]Could not get object metadata: " ++ err_str e ++ "[/red]") ;;;
       ret false)%run.

Definition list_similar_objects (rt : Runtime) (s3 : Service) (s3_client : Client)
           (bucket key : string) : Run unit :=
  let prefix := listing_prefix key in
  try_except
    (response <- remote s3_client (ListObjectsV2 bucket prefix 10)
                        (list_objects_v2 s3 s3_client bucket prefix 10) ;;
     match response with
     | Some contents =>
       print rt (nl ++ "[green]Found similar objects:[/green]") ;;;
       print_table rt ["Key"; "Size"; "Last Modified"]
         (map (fun obj => [obj_Key obj; str_N (obj_Size obj); obj_LastModified obj]) contents)
     | None =>
       print rt ("[yellow]No objects found with prefix: " ++ prefix ++ "[/yellow]")
     end)%run
    (fun e => print rt ("[red]Error listing objects: " ++ err_str e ++ "[/red]")).

Definition check_bucket_policy (rt : Runtime) (s3 : Service) (s3_client : Client)
           (bucket : string) : Run unit :=
  try_except
    (policy <- remote s3_client (GetBucketPolicy bucket) (get_bucket_policy s3 s3_client bucket) ;;
     print rt "[green]Bucket policy found:[/green]" ;;;
     print rt policy)%run
    (fun e =>
       match err_code e with
       | None => lift (Raise KeyError)
       | Some code =>
         if (code =? "NoSuchBucketPolicy")%string then
           print rt "[yellow]No bucket policy found[/yellow]"
         else
           print rt ("[red]Error getting bucket policy: " ++ err_str e ++ "[/red]")
       end).

Definition check_bucket_location (rt : Runtime) (s3 : Service) (s3_client : Client)
           (bucket : string) : Run (option string) :=
  try_except
    (location <- remote s3_client (GetBucketLocation bucket)
                        (get_bucket_location s3 s3_client bucket) ;;
     let region := or_default location "us-east-1" in
     print rt ("[green]Bucket region: " ++ region ++ "[/green]") ;;;
     ret (Some region))%run
    (fun e =>
       print rt ("[red]Error getting bucket location: " ++ err_str e ++ "[/red]") ;;;
       ret None)%run.

Definition check_bucket_acl (rt : Runtime) (s3 : Service) (s3_client : Client)
           (bucket : string) : Run unit :=
  try_except
    (acl <- remote s3_client (GetBucketAcl bucket) (get_bucket_acl s3 s3_client bucket) ;;
     print rt (nl ++ "[green]Bucket ACL:[/green]") ;;;
     for_each acl
       (fun grant =>
          print rt ("- Grantee: " ++
                    match grantee_DisplayName grant with Some n => n | None => "Unknown" end) ;;;
          print rt ("  Permission: " ++ grant_Permission grant)))%run
    (fun e => print rt ("[red]Error getting bucket ACL: " ++ err_str e ++ "[/red]")).

Definition debug_s3_access (rt : Runtime) (lib : Checks) (s3 : Service)
           (url : string) (profile region : option string) : Run unit :=
  ('(bucket, key) <- lift (extract_bucket_and_key lib url) ;;
   print rt ("[bold]Analyzing URL: " ++ url ++ "[/bold]") ;;;
   print rt ("Bucket: " ++ bucket) ;;;
   print rt ("Key: " ++ key ++ nl) ;;;
   session <- boto3_Session rt profile ;;
   s3_client <- client rt session "s3" region ;;
   exists_ <- check_bucket_exists rt s3 s3_client bucket ;;
   if negb exists_ then ret tt
   else
     actual_region <- check_bucket_location rt s3 s3_client bucket ;;
     s3_client <-
       (if truthy actual_region && truthy region && negb (opt_eqb actual_region region)
        then
          print rt ("[yellow]Warning: Specified region " ++ fmt region ++
                    " differs from bucket region " ++ fmt actual_region ++ "[/yellow]") ;;;
          client rt session "s3" actual_region
        else ret s3_client) ;;
     check_object_metadata rt s3 s3_client bucket key ;;;
     list_similar_objects rt s3 s3_client bucket key ;;;
     check_bucket_policy rt s3 s3_client bucket ;;;
     check_bucket_acl rt s3 s3_client bucket)%run.

End Live.

(** ** Vocabulary of the statements *)

(** No occurrence of [sep] in [a ++ rest] starts inside [a]. *)
Definition no_early (sep a rest : string) : Prop :=
  forall a1 c a2, a = a1 ++ String c a2 ->
                  startswith sep (String c a2 ++ rest) = false.

(** [sep] has no border: no proper suffix of it is also a prefix, so two
    occurrences of it never overlap. *)
Definition unbordered (sep : string) : bool :=
  forallb (fun k => negb (startswith (drop k sep) sep))
          (seq 1 (String.length sep - 1)).

(** Tab, line feed, carriage return, and the three characters at which
    [urlparse] cuts a path short. *)
Definition url_reserved : string := chr 9 ++ chr 10 ++ chr 13 ++ "?#;".

(** No character of [chars] occurs in [s]. *)
Definition free_of (chars s : string) : bool :=
  all_chars (fun c => negb (char_in c chars)) s.

Fixpoint slashes (n : nat) : string :=
  match n with
  | O => EmptyString
  | S n' => String "/" (slashes n')
  end.

(** [s.replace(c, "")] for a single character, as a filter. *)
Fixpoint strip_char (c : ascii) (s : string) : string :=
  match s with
  | EmptyString => EmptyString
  | String x s' =>
    if Ascii.eqb c x then strip_char c s' else String x (strip_char c s')
  end.

(** The deletion of tab, carriage return and line feed in [urlsplit]. *)
Definition remove_unsafe (s : string) : string :=
  fold_left (fun u b => replace b "" u) _UNSAFE_URL_BYTES_TO_REMOVE s.

(** [t] is empty or opens a query or a fragment. *)
Definition opens_query_or_fragment (t : string) : bool :=
  (t =? "")%string || startswith "?" t || startswith "#" t.

(** The key as section 4.1 of the specification words it for the
    virtual-hosted shape: everything after the first occurrence of
    [.amazonaws.com/] in the full URL. *)
Definition spec_key_after_first_marker (url : string) : option string :=
  match find ".amazonaws.com/" url 0 with
  | Some i => Some (drop (i + String.length ".amazonaws.com/") url)
  | None => None
  end.

(** The path-style rule as the specification words it: strip a single
    leading slash, split on the first [/] into at most two parts. *)
Definition strip_one_slash (p : string) : string :=
  match p with
  | String "/" p' => p'
  | _ => p
  end.

Definition spec_path_style (p : string) : string * string :=
  match splitn "/" (Some 1) (strip_one_slash p) with
  | [b] => (b, EmptyString)
  | b :: k :: _ => (b, k)
  | [] => (EmptyString, EmptyString)
  end.

(** The part of [debug_s3_access] that follows the location probe, on the
    client [c] that is current there. *)
Definition probe_tail (s3 : Service) (c : Client) (bucket key : string) : Run unit :=
  (check_object_metadata s3 c bucket key ;;;
   list_similar_objects s3 c bucket key ;;;
   check_bucket_policy s3 c bucket ;;;
   check_bucket_acl s3 c bucket)%run.

(** The client that [debug_s3_access] holds after the location probe has
    returned [actual_region]. *)
Definition next_client (profile region actual_region : option string) : Client :=
  if truthy actual_region && truthy region && negb (opt_eqb actual_region region)
  then client (mkSession profile) "s3" actual_region
  else client (mkSession profile) "s3" region.

(** The region hint as [debug_s3_access] sees it: its test [... and region
    and ...] takes [None] and the empty string alike for no hint. *)
Definition supplied_hint (region : option string) : option string :=
  if truthy region then region else None.

(** The four probes that follow the location probe, all on client [c]. *)
Definition probes_after_location (c : Client) (bucket key : string) :
  list (Client * Operation) :=
  [(c, HeadObject bucket key);
   (c, ListObjectsV2 bucket (listing_prefix key) 10);
   (c, GetBucketPolicy bucket);
   (c, GetBucketAcl bucket)].

(** After the existence and location probes on [c0], every later probe that
    issues its call issues it on [c]: the metadata probe always does, and
    all four do when the run ends without an uncaught exception. *)
Definition later_probes_use (c0 c : Client) (bucket key : string)
           (run : Run unit) : Prop :=
  exists n,
    calls (trace run) =
    (c0, HeadBucket bucket) :: (c0, GetBucketLocation bucket) ::
    firstn (S n) (probes_after_location c bucket key) /\
    (outcome run = Ok tt -> 3 <= n).

(** What the policy probe prints for an error response with code [code]. *)
Definition policy_error_message (code : string) (e : ClientError) : string :=
  if (code =? "NoSuchBucketPolicy")%string
  then "[yellow]No bucket policy found[/yellow]"
  else "[red]Error getting bucket policy: " ++ err_str e ++ "[/red]".

(** Sample inputs for the worked examples. *)
Definition sample_url : string :=
  "https://s3.amazonaws.com/my-bucket/folder/file.txt".

Definition lenient : Checks := mkChecks (fun _ => true) (fun _ => true).
Definition strict : Checks := mkChecks (fun _ => false) (fun _ => false).

(** Every bucket is forbidden; the location query, were it made, would
    report a null constraint. *)
Definition forbidden_service : Service :=
  mkService
    (fun _ _ => Raise (ClientErrorExn (mkClientError (Some "403") "Forbidden")))
    (fun _ _ => Ok None)
    (fun _ _ _ => Ok [])
    (fun _ _ _ _ => Ok None)
    (fun _ _ => Ok "{}")
    (fun _ _ => Ok []).

(** A bucket in [eu-west-1] without a policy, whose objects can only be
    read through a client of that region or of no region. *)
Definition sample_service : Service :=
  mkService
    (fun _ _ => Ok tt)
    (fun _ _ => Ok (Some "eu-west-1"))
    (fun c _ _ => if opt_eqb (region_name c) (Some "eu-west-1")
                     || opt_eqb (region_name c) None
                  then Ok [("ContentLength", "12"); ("ResponseMetadata", "{}")]
                  else Raise (ClientErrorExn (mkClientError (Some "301") "moved")))
    (fun _ _ _ _ => Ok (Some [mkS3Object "folder/file.txt" 12 "2024-01-01"]))
    (fun _ _ => Raise (ClientErrorExn (mkClientError (Some "NoSuchBucketPolicy") "none")))
    (fun _ _ => Ok [mkGrant None "FULL_CONTROL"]).


(** ** Vocabulary of the further properties *)

(** Tab, line feed, carriage return, and the characters that end or bracket
    the host in [urlsplit]. *)
Definition host_reserved : string := chr 9 ++ chr 10 ++ chr 13 ++ "/?#[]".

Definition path_style_schemes : list string := ["http"; "https"; "s3"].

(** The six remote calls of a full run, in the order of the source. *)
Definition expected_ops (bucket key : string) : list Operation :=
  [HeadBucket bucket;
   GetBucketLocation bucket;
   HeadObject bucket key;
   ListObjectsV2 bucket (listing_prefix key) 10;
   GetBucketPolicy bucket;
   GetBucketAcl bucket].

(** The client returned a payload or raised [ClientError]. *)
Definition answered {A} (r : res A) : Prop :=
  match r with
  | Ok _ => True
  | Raise (ClientErrorExn _) => True
  | Raise _ => False
  end.

(** The same, with an error response that carries a code. *)
Definition answered_with_code {A} (r : res A) : Prop :=
  match r with
  | Ok _ => True
  | Raise (ClientErrorExn e) => err_code e <> None
  | Raise _ => False
  end.

(** The lines that the metadata probe prints for the items of a response. *)
Definition metadata_lines (metadata : list (string * string)) : list event :=
  map (fun kv => Print (fst kv ++ ": " ++ snd kv))
      (filter (fun kv => negb (fst kv =? "ResponseMetadata")%string) metadata).

(** An existing bucket whose policy query is answered with an error response
    that carries no error code. *)
Definition codeless_policy_service : Service :=
  mkService
    (fun _ _ => Ok tt)
    (fun _ _ => Ok None)
    (fun _ _ _ => Ok [])
    (fun _ _ _ _ => Ok None)
    (fun _ _ => Raise (ClientErrorExn (mkClientError None "malformed")))
    (fun _ _ => Ok []).

(** ** Vocabulary of the statements about the failing runtime *)

(** The exception that the console raises on an event, if any; a remote call
    is not the console's. *)
Definition raises (rt : Runtime) (ev : event) : option string :=
  match ev with
  | Print text => print_raises rt text
  | PrintTable columns rows => table_raises rt columns rows
  | Call _ _ => None
  end.

Definition renders (rt : Runtime) (ev : event) : bool :=
  match raises rt ev with
  | Some _ => false
  | None => true
  end.

(** The events of [t] before the first one that the console rejects, and the
    exception raised there. *)
Fixpoint accepted (rt : Runtime) (t : list event) : list event * option string :=
  match t with
  | [] => ([], None)
  | ev :: t' =>
    match raises rt ev with
    | Some name => ([], Some name)
    | None => let (t1, r) := accepted rt t' in (ev :: t1, r)
    end
  end.

(** A run stopped at the first event that the console rejects. *)
Definition cut {A} (rt : Runtime) (m : Run A) : Run A :=
  match accepted rt (trace m) with
  | (t1, Some name) => (t1, Raise (OtherException name))
  | (_, None) => m
  end.

(** The four probes that follow the location probe, on the failing runtime. *)
Definition live_probe_tail (rt : Runtime) (s3 : Service) (c : Client)
           (bucket key : string) : Run unit :=
  (Live.check_object_metadata rt s3 c bucket key ;;;
   Live.list_similar_objects rt s3 c bucket key ;;;
   Live.check_bucket_policy rt s3 c bucket ;;;
   Live.check_bucket_acl rt s3 c bucket)%run.

(** A runtime in which nothing is rejected. *)
Definition ideal : Runtime :=
  mkRuntime (fun _ => None) (fun _ _ => None) (fun _ => None) (fun _ _ _ => None).

(** A console that rejects every text and every table cell holding the
    closing tag [[/]], a profile [nope] that is not configured, and a client
    that cannot be built for an empty region name. *)
Definition sample_runtime : Runtime :=
  mkRuntime
    (fun text => if contains "[/]" text then Some "MarkupError" else None)
    (fun _ rows => if existsb (existsb (contains "[/]")) rows
                   then Some "MarkupError" else None)
    (fun profile => if opt_eqb profile (Some "nope")
                    then Some (OtherException "ProfileNotFound") else None)
    (fun _ _ region => if opt_eqb region (Some "") then Some ValueError else None).

(** An existing bucket whose policy query fails before any response. *)
Definition unreachable_policy_service : Service :=
  mkService
    (fun _ _ => Ok tt)
    (fun _ _ => Ok None)
    (fun _ _ _ => Ok [])
    (fun _ _ _ _ => Ok None)
    (fun _ _ => Raise (OtherException "EndpointConnectionError"))
    (fun _ _ => Ok []).

(** An object one of whose metadata values holds the closing tag [[/]]. *)
Definition tagged_metadata_service : Service :=
  mkService
    (fun _ _ => Ok tt)
    (fun _ _ => Ok None)
    (fun _ _ _ => Ok [("ContentLength", "12"); ("ContentType", "text[/]plain");
                      ("ETag", "abc")])
    (fun _ _ _ _ => Ok None)
    (fun _ _ => Ok "{}")
    (fun _ _ => Ok []).


(** * Facts about the string primitives *)

Section StringFacts.

Lemma append_empty_r (s : string) : s ++ "" = s.
Proof. induction s; simpl; congruence. Qed.

Lemma append_assoc (a b c : string) : (a ++ b) ++ c = a ++ b ++ c.
Proof. induction a; simpl; congruence. Qed.

Lemma length_append (a b : string) :
  String.length (a ++ b) = String.length a + String.length b.
Proof. induction a; simpl; congruence. Qed.

Lemma append_inv_head (a b c : string) : a ++ b = a ++ c -> b = c.
Proof. induction a; simpl; intros H; [assumption | injection H; auto]. Qed.

(** Two ways of cutting one string: one cut point lies at or after the other. *)
Lemma append_eq_append (a b c d : string) :
  a ++ b = c ++ d ->
  (exists e, c = a ++ e /\ b = e ++ d) \/
  (exists x e, a = c ++ String x e /\ d = String x e ++ b).
Proof.
  revert c. induction a as [|x a IH]; intros c H.
  - left. exists c. split; [reflexivity | exact H].
  - destruct c as [|y c].
    + right. exists x, a. split; [reflexivity | simpl in *; congruence].
    + simpl in H. injection H as Hxy H. subst y.
      destruct (IH _ H) as [[e [-> ->]] | [z [e [-> ->]]]].
      * left. exists e. split; reflexivity.
      * right. exists z, e. split; reflexivity.
Qed.

Lemma startswith_append (p s : string) : startswith p (p ++ s) = true.
Proof.
  induction p as [|c p IH]; simpl; [reflexivity|].
  now rewrite Ascii.eqb_refl.
Qed.

Lemma startswith_inv (p s : string) :
  startswith p s = true -> exists t, s = p ++ t.
Proof.
  revert s. induction p as [|c p IH]; intros s H.
  - exists s. reflexivity.
  - destruct s as [|d s]; simpl in H; [discriminate|].
    apply andb_true_iff in H. destruct H as [Hc Hp].
    apply Ascii.eqb_eq in Hc. subst d.
    destruct (IH _ Hp) as [t ->]. exists t. reflexivity.
Qed.

Lemma startswith_empty (s : string) : startswith "" s = true.
Proof. destruct s; reflexivity. Qed.

Lemma drop_append (a b : string) : drop (String.length a) (a ++ b) = b.
Proof. induction a; simpl; [destruct b; reflexivity | assumption]. Qed.

Lemma take_append (a b : string) : take (String.length a) (a ++ b) = a.
Proof. induction a; simpl; [destruct b; reflexivity | congruence]. Qed.

Lemma drop_0 (s : string) : drop 0 s = s.
Proof. destruct s; reflexivity. Qed.

(** *** Membership *)

Lemma contains_cons (sub : string) (c : ascii) (s : string) :
  contains sub (String c s) = startswith sub (String c s) || contains sub s.
Proof. reflexivity. Qed.

Lemma contains_append_r (sub a b : string) :
  contains sub b = true -> contains sub (a ++ b) = true.
Proof.
  intros H. induction a as [|c a IH]; simpl append; [assumption|].
  rewrite contains_cons, IH. apply orb_true_r.
Qed.

Lemma contains_mid (sub a b : string) : contains sub (a ++ sub ++ b) = true.
Proof.
  apply contains_append_r.
  destruct (sub ++ b) eqn:E.
  - simpl. rewrite <- E, startswith_append. reflexivity.
  - rewrite contains_cons, <- E, startswith_append. reflexivity.
Qed.

Lemma contains_append_l (sub a b : string) :
  contains sub a = true -> contains sub (a ++ b) = true.
Proof.
  induction a as [|c a IH]; intros H.
  - simpl in H. rewrite orb_false_r in H.
    destruct sub; [|discriminate].
    destruct b; reflexivity.
  - rewrite contains_cons in H. apply orb_true_iff in H. destruct H as [H | H].
    + destruct (startswith_inv _ _ H) as [t Ht].
      rewrite Ht, append_assoc.
      apply (contains_mid sub "" (t ++ b)).
    + simpl append. rewrite contains_cons, (IH H). apply orb_true_r.
Qed.

Lemma contains_char_cons (c x : ascii) (s : string) :
  contains (String c "") (String x s) = Ascii.eqb c x || contains (String c "") s.
Proof.
  rewrite contains_cons. simpl startswith.
  rewrite andb_true_r. reflexivity.
Qed.

Lemma contains_char_append (c : ascii) (a b : string) :
  contains (String c "") (a ++ b) =
  contains (String c "") a || contains (String c "") b.
Proof.
  induction a as [|x a IH].
  - reflexivity.
  - simpl append. rewrite !contains_char_cons, IH. apply orb_assoc.
Qed.

End StringFacts.

(** * Facts about [split] and [join] *)

Section SplitFacts.

Lemma split_from_skip sep m k s :
  split_from sep m k s = split_from sep m 0 (drop k s).
Proof.
  revert k. induction s as [|c s IH]; intros [|k]; try reflexivity.
  simpl. apply IH.
Qed.

Lemma splitn_empty sep m : splitn sep m "" = [""].
Proof. reflexivity. Qed.

Lemma splitn_cons sep m c s :
  splitn sep m (String c s) =
  if may_split m && startswith sep (String c s)
  then "" :: splitn sep (one_less m) (drop (String.length sep - 1) s)
  else cons_head c (splitn sep m s).
Proof.
  unfold splitn. cbn [split_from].
  destruct (may_split m && startswith sep (String c s)); [|reflexivity].
  now rewrite split_from_skip.
Qed.

Lemma splitn_not_nil sep m s : splitn sep m s <> [].
Proof.
  revert m. induction s as [|c s IH]; intros m.
  - discriminate.
  - rewrite splitn_cons.
    destruct (may_split m && startswith sep (String c s)); [discriminate|].
    specialize (IH m). destruct (splitn sep m s); [contradiction | discriminate].
Qed.

Lemma splitn_budget_0 sep s : splitn sep (Some 0) s = [s].
Proof.
  induction s as [|c s IH]; [reflexivity|].
  rewrite splitn_cons. simpl. rewrite IH. reflexivity.
Qed.

Lemma splitn_absent sep m s :
  contains sep s = false -> splitn sep m s = [s].
Proof.
  induction s as [|c s IH]; intros H; [reflexivity|].
  rewrite contains_cons in H. apply orb_false_iff in H. destruct H as [H1 H2].
  rewrite splitn_cons, H1, andb_false_r, (IH H2). reflexivity.
Qed.

Lemma no_early_tail sep c a rest :
  no_early sep (String c a) rest -> no_early sep a rest.
Proof.
  intros H a1 x a2 E. apply (H (String c a1) x a2). simpl. now rewrite E.
Qed.

(** The first piece of a split ends at the first occurrence. *)
Lemma splitn_first sep m a b :
  sep <> "" ->
  may_split m = true ->
  no_early sep a (sep ++ b) ->
  splitn sep m (a ++ sep ++ b) = a :: splitn sep (one_less m) b.
Proof.
  intros Hsep Hm. induction a as [|x a IH]; intros Hne.
  - destruct sep as [|c0 sep']; [contradiction|].
    change ("" ++ String c0 sep' ++ b) with (String c0 (sep' ++ b)).
    rewrite splitn_cons, Hm.
    change (String c0 (sep' ++ b)) with (String c0 sep' ++ b).
    rewrite startswith_append. simpl andb. cbv iota.
    replace (String.length (String c0 sep') - 1) with (String.length sep')
      by (simpl; lia).
    rewrite drop_append. reflexivity.
  - change (String x a ++ sep ++ b) with (String x (a ++ sep ++ b)).
    rewrite splitn_cons.
    pose proof (Hne "" x a eq_refl) as Hx.
    change (String x a ++ sep ++ b) with (String x (a ++ sep ++ b)) in Hx.
    rewrite Hx, andb_false_r.
    rewrite (IH (no_early_tail _ _ _ _ Hne)). reflexivity.
Qed.

Lemma first_occurrence sep s :
  contains sep s = true ->
  exists a b, s = a ++ sep ++ b /\ no_early sep a (sep ++ b).
Proof.
  induction s as [|c s IH]; intros H.
  - simpl in H. rewrite orb_false_r in H. destruct sep; [|discriminate].
    exists "", "". split; [reflexivity|].
    intros [|? ?] ? ? E; discriminate.
  - rewrite contains_cons in H.
    destruct (startswith sep (String c s)) eqn:Hs.
    + destruct (startswith_inv _ _ Hs) as [t Ht].
      exists "", t. split; [exact Ht|].
      intros [|? ?] ? ? E; discriminate.
    + simpl in H. destruct (IH H) as [a [b [E Hne]]].
      exists (String c a), b. split; [simpl; congruence|].
      intros [|y a1] x a2 E2; simpl in E2; injection E2 as -> E2.
      * subst a2. simpl append. rewrite <- E. exact Hs.
      * exact (Hne _ _ _ E2).
Qed.

Lemma contains_inv sep s :
  contains sep s = true -> exists a b, s = a ++ sep ++ b.
Proof.
  intros H. destruct (first_occurrence _ _ H) as [a [b [E _]]]. eauto.
Qed.

Lemma no_early_absent sep a b :
  sep <> "" -> no_early sep a (sep ++ b) -> contains sep a = false.
Proof.
  intros Hsep Hne. destruct (contains sep a) eqn:E; [|reflexivity].
  destruct (contains_inv _ _ E) as [a1 [a2 Ea]].
  destruct sep as [|c0 sep']; [contradiction|].
  specialize (Hne a1 c0 (sep' ++ a2) Ea).
  change (String c0 (sep' ++ a2)) with (String c0 sep' ++ a2) in Hne.
  rewrite append_assoc, startswith_append in Hne. discriminate.
Qed.

Lemma no_early_char c a rest :
  contains (String c "") a = false -> no_early (String c "") a rest.
Proof.
  intros H a1 x a2 ->.
  rewrite contains_char_append, contains_char_cons in H.
  apply orb_false_iff in H. destruct H as [_ H].
  apply orb_false_iff in H. destruct H as [H _].
  simpl. now rewrite H.
Qed.

Lemma join_cons_head sep c l :
  l <> [] -> join sep (cons_head c l) = String c (join sep l).
Proof.
  destruct l as [|p [|q l]]; [contradiction | reflexivity | reflexivity].
Qed.

Lemma join_cons sep x l :
  l <> [] -> join sep (x :: l) = x ++ sep ++ join sep l.
Proof. destruct l; [contradiction | reflexivity]. Qed.

(** [sep.join(s.split(sep, m)) == s] *)
Lemma join_splitn sep m s : sep <> "" -> join sep (splitn sep m s) = s.
Proof.
  intros Hsep.
  remember (String.length s) as n eqn:Hn.
  assert (Hle : String.length s <= n) by lia. clear Hn.
  revert m s Hle. induction n as [|n IH]; intros m s Hle.
  - destruct s; [reflexivity | simpl in Hle; lia].
  - destruct s as [|c s]; [reflexivity|].
    rewrite splitn_cons.
    destruct (may_split m && startswith sep (String c s)) eqn:Hc.
    + apply andb_true_iff in Hc. destruct Hc as [_ Hs].
      destruct (startswith_inv _ _ Hs) as [t Ht].
      destruct sep as [|c0 sep']; [contradiction|].
      simpl in Ht. injection Ht as -> ->.
      replace (String.length (String c0 sep') - 1) with (String.length sep')
        by (simpl; lia).
      rewrite drop_append.
      rewrite join_cons by apply splitn_not_nil.
      rewrite IH; [reflexivity|].
      simpl in Hle. rewrite length_append in Hle. lia.
    + rewrite join_cons_head by apply splitn_not_nil.
      rewrite IH; [reflexivity | simpl in Hle; lia].
Qed.

Lemma getitem_last_cons {A} (x : A) l :
  l <> [] -> getitem_last (x :: l) = getitem_last l.
Proof. destruct l; [contradiction | reflexivity]. Qed.

Lemma getitem_last_app {A} (l : list A) x :
  getitem_last (l ++ [x])%list = Ok x.
Proof.
  induction l as [|y l IH]; [reflexivity|].
  simpl app. rewrite getitem_last_cons; [exact IH|].
  destruct l; discriminate.
Qed.

End SplitFacts.

Section LastPiece.

Lemma unbordered_no_border sep d e :
  unbordered sep = true -> sep = d ++ e -> d <> "" -> e <> "" ->
  startswith e sep = false.
Proof.
  intros Hu -> Hd He. unfold unbordered in Hu. rewrite forallb_forall in Hu.
  specialize (Hu (String.length d)). rewrite drop_append in Hu.
  apply negb_true_iff, Hu, in_seq. rewrite length_append.
  destruct d; [contradiction|]. destruct e; [contradiction|]. simpl. lia.
Qed.

(** For a separator without border, the last piece of a split is what
    follows the last occurrence. *)
Lemma split_last_piece sep pre rest :
  sep <> "" -> unbordered sep = true -> contains sep rest = false ->
  getitem_last (split sep (pre ++ sep ++ rest)) = Ok rest.
Proof.
  intros Hsep Hu Hrest.
  remember (S (String.length pre)) as n eqn:Hn.
  assert (Hlt : String.length pre < n) by lia. clear Hn.
  revert pre Hlt. induction n as [|n IH]; intros pre Hlt; [lia|].
  destruct (first_occurrence sep _ (contains_mid sep pre rest)) as [a [b [E Hne]]].
  unfold split. rewrite E, splitn_first by auto. simpl one_less.
  rewrite getitem_last_cons by apply splitn_not_nil.
  destruct (append_eq_append _ _ _ _ E) as [[e [Ea Eb]] | [x [e [Epre Eb]]]].
  - destruct e as [|x e].
    + simpl in Eb. apply append_inv_head in Eb. subst b.
      rewrite splitn_absent by assumption. reflexivity.
    + specialize (Hne pre x e Ea). rewrite <- Eb, startswith_append in Hne.
      discriminate.
  - destruct (append_eq_append _ _ _ _ Eb) as [[f [Ef Eb']] | [y [f [Es Er]]]].
    + subst b. apply (IH f).
      rewrite Epre, Ef, !length_append in Hlt.
      destruct sep; [contradiction|]. simpl in Hlt. lia.
    + exfalso.
      assert (Hb : startswith (String y f) sep = true).
      { destruct (append_eq_append _ _ _ _ Er) as [[g [Eg _]] | [z [g [Eg _]]]].
        - apply (f_equal String.length) in Es, Eg.
          rewrite !length_append in *. simpl in *. lia.
        - rewrite Eg. apply startswith_append. }
      rewrite (unbordered_no_border sep (String x e) (String y f)) in Hb;
        [discriminate | assumption | assumption | discriminate | discriminate].
Qed.

(** The last piece is always a suffix of the string: the whole of it, or
    what follows some occurrence of the separator. *)
Lemma split_last_suffix sep s :
  sep <> "" ->
  exists pre piece,
    getitem_last (split sep s) = Ok piece /\ s = pre ++ piece /\
    (pre = "" \/ exists p, pre = p ++ sep).
Proof.
  intros Hsep.
  remember (S (String.length s)) as n eqn:Hn.
  assert (Hlt : String.length s < n) by lia. clear Hn.
  revert s Hlt. induction n as [|n IH]; intros s Hlt; [lia|].
  destruct (contains sep s) eqn:Hc.
  - destruct (first_occurrence sep _ Hc) as [a [b [E Hne]]].
    destruct (IH b) as [pre [piece [Hl [Eb Hp]]]].
    { rewrite E, !length_append in Hlt.
      destruct sep; [contradiction|]. simpl in Hlt. lia. }
    exists (a ++ sep ++ pre), piece. split; [|split].
    + unfold split. rewrite E, splitn_first by auto. simpl one_less.
      rewrite getitem_last_cons by apply splitn_not_nil. exact Hl.
    + rewrite E, Eb, !append_assoc. reflexivity.
    + right. destruct Hp as [-> | [p ->]].
      * exists a. now rewrite append_empty_r.
      * exists (a ++ sep ++ p). now rewrite !append_assoc.
  - exists "", s. unfold split. rewrite splitn_absent by assumption. auto.
Qed.

(** Splitting on a single character distributes over concatenation at an
    occurrence of that character. *)
Lemma split_char_append c d f :
  split (String c "") (d ++ String c "" ++ f) =
  (split (String c "") d ++ split (String c "") f)%list.
Proof.
  unfold split. induction d as [|x d IH].
  - change ("" ++ String c "" ++ f) with (String c f).
    rewrite splitn_cons. simpl. rewrite Ascii.eqb_refl. simpl.
    rewrite ?drop_0. reflexivity.
  - change (String x d ++ String c "" ++ f) with (String x (d ++ String c "" ++ f)).
    rewrite !splitn_cons.
    change (String.length (String c "") - 1) with 0. rewrite !drop_0.
    change (one_less None) with (@None nat). rewrite !IH.
    simpl may_split. simpl andb. simpl startswith. rewrite !andb_true_r.
    destruct (Ascii.eqb c x); [reflexivity|].
    pose proof (splitn_not_nil (String c "") None d) as Hd.
    destruct (splitn (String c "") None d); [contradiction | reflexivity].
Qed.

Lemma drop_last_app {A} (l : list A) x : drop_last (l ++ [x])%list = l.
Proof. apply removelast_last. Qed.

End LastPiece.

(** * Facts about the urllib model *)

Section UrlFacts.

Lemma take_drop n s : take n s ++ drop n s = s.
Proof.
  revert s. induction n as [|n IH]; intros [|c s]; try reflexivity.
  simpl. now rewrite IH.
Qed.

Lemma contains_append_false sub a b :
  contains sub (a ++ b) = false ->
  contains sub a = false /\ contains sub b = false.
Proof.
  intros H. split.
  - destruct (contains sub a) eqn:E; [|reflexivity].
    rewrite (contains_append_l _ _ _ E) in H. discriminate.
  - destruct (contains sub b) eqn:E; [|reflexivity].
    rewrite (contains_append_r _ _ _ E) in H. discriminate.
Qed.


Lemma contains_drop sub n s :
  contains sub s = false -> contains sub (drop n s) = false.
Proof.
  intros H. rewrite <- (take_drop n s) in H.
  now apply contains_append_false in H.
Qed.

Lemma find_at_absent sub s pos :
  contains sub s = false -> find_at sub s pos = None.
Proof.
  revert pos. induction s as [|c s IH]; intros pos H.
  - simpl in *. rewrite orb_false_r in H. now rewrite H.
  - rewrite contains_cons in H. apply orb_false_iff in H. destruct H as [H1 H2].
    simpl find_at. simpl in H1. rewrite H1. now apply IH.
Qed.

Lemma find_absent sub s start :
  contains sub s = false -> find sub s start = None.
Proof.
  intros H. unfold find. destruct (String.length s <? start); [reflexivity|].
  apply find_at_absent, contains_drop, H.
Qed.

Lemma replace_absent old new s :
  contains old s = false -> replace old new s = s.
Proof. intros H. unfold replace, split. now rewrite splitn_absent. Qed.

Lemma free_of_contains chars s c :
  free_of chars s = true -> char_in c chars = true ->
  contains (String c "") s = false.
Proof.
  intros Hs Hc. induction s as [|x s IH]; [reflexivity|].
  simpl in Hs. apply andb_true_iff in Hs. destruct Hs as [Hx Hs].
  rewrite contains_char_cons, (IH Hs), orb_false_r.
  destruct (Ascii.eqb_spec c x) as [->|]; [|reflexivity].
  rewrite Hc in Hx. discriminate.
Qed.

Lemma free_of_append chars a b :
  free_of chars (a ++ b) = free_of chars a && free_of chars b.
Proof.
  unfold free_of. induction a as [|x a IH]; [reflexivity|].
  simpl. rewrite IH. apply andb_assoc.
Qed.

(** Cutting at the first occurrence, as [urlsplit] does for [#] and [?]. *)
Lemma cut_first sep u :
  sep <> "" ->
  exists p t,
    (if contains sep u then unpack2 (splitn sep (Some 1) u)
     else Ok (u, "")) = Ok (p, t) /\
    contains sep p = false /\ exists v, u = p ++ v.
Proof.
  intros Hsep. destruct (contains sep u) eqn:Hc.
  - destruct (first_occurrence _ _ Hc) as [a [b [E Hne]]].
    exists a, b. rewrite E at 1.
    rewrite splitn_first by auto. simpl one_less. rewrite splitn_budget_0.
    split; [reflexivity|]. split; [exact (no_early_absent _ _ _ Hsep Hne)|].
    exists (sep ++ b). exact E.
  - exists u, "". split; [reflexivity|]. split; [exact Hc|].
    exists "". now rewrite append_empty_r.
Qed.




Lemma replace_char_empty c s : replace (String c "") "" s = strip_char c s.
Proof.
  unfold replace, split. induction s as [|x s IH]; [reflexivity|].
  rewrite splitn_cons. cbn [may_split andb startswith strip_char].
  rewrite andb_true_r. destruct (Ascii.eqb c x).
  - cbn [String.length Nat.sub one_less option_map]. rewrite drop_0.
    rewrite join_cons by apply splitn_not_nil. exact IH.
  - rewrite join_cons_head by apply splitn_not_nil. now rewrite IH.
Qed.

Lemma strip_char_append c a b :
  strip_char c (a ++ b) = strip_char c a ++ strip_char c b.
Proof.
  induction a as [|x a IH]; [reflexivity|].
  cbn [append strip_char]. destruct (Ascii.eqb c x); cbn [append]; now rewrite IH.
Qed.

Lemma strip_char_absent c s :
  contains (String c "") s = false -> strip_char c s = s.
Proof.
  induction s as [|x s IH]; [reflexivity|].
  rewrite contains_char_cons. intros H. apply orb_false_iff in H.
  destruct H as [H1 H2]. cbn [strip_char]. now rewrite H1, IH.
Qed.

Lemma remove_unsafe_strip s :
  remove_unsafe s = strip_char (ascii_of_nat 10)
                      (strip_char (ascii_of_nat 13) (strip_char (ascii_of_nat 9) s)).
Proof.
  unfold remove_unsafe, _UNSAFE_URL_BYTES_TO_REMOVE, chr. cbn [fold_left].
  now rewrite !replace_char_empty.
Qed.

Lemma remove_unsafe_append a b :
  remove_unsafe (a ++ b) = remove_unsafe a ++ remove_unsafe b.
Proof. rewrite !remove_unsafe_strip, !strip_char_append. reflexivity. Qed.

Lemma remove_unsafe_plain q :
  free_of url_reserved q = true -> remove_unsafe q = q.
Proof.
  intros H. rewrite remove_unsafe_strip.
  rewrite (strip_char_absent (ascii_of_nat 9))
    by (apply (free_of_contains _ _ _ H); reflexivity).
  rewrite (strip_char_absent (ascii_of_nat 13))
    by (apply (free_of_contains _ _ _ H); reflexivity).
  apply strip_char_absent, (free_of_contains _ _ _ H). reflexivity.
Qed.

Lemma remove_unsafe_opens t :
  opens_query_or_fragment t = true ->
  opens_query_or_fragment (remove_unsafe t) = true.
Proof.
  destruct t as [|x t]; [reflexivity|].
  unfold opens_query_or_fragment. cbn [String.eqb orb startswith].
  rewrite !andb_true_r. intros H. apply orb_true_iff in H.
  rewrite remove_unsafe_strip.
  destruct H as [H|H]; apply Ascii.eqb_eq in H; subst x; reflexivity.
Qed.

Lemma find_at_ge sub s pos j : find_at sub s pos = Some j -> pos <= j.
Proof.
  revert pos. induction s as [|c s IH]; intros pos; cbn [find_at].
  - destruct (startswith sub ""); intros H; inversion H; lia.
  - destruct (startswith sub (String c s)); intros H.
    + inversion H; lia.
    + apply IH in H. lia.
Qed.

(** The two cuts of [urlsplit], at [#] and then at [?], give back the path
    when what follows it opens a query or a fragment. *)
Lemma cut_query_fragment p t :
  contains "#" p = false -> contains "?" p = false ->
  opens_query_or_fragment t = true ->
  exists p1 fr qu,
    (if contains "#" (p ++ t) then unpack2 (splitn "#" (Some 1) (p ++ t))
     else Ok (p ++ t, "")) = Ok (p1, fr) /\
    (if contains "?" p1 then unpack2 (splitn "?" (Some 1) p1)
     else Ok (p1, "")) = Ok (p, qu).
Proof.
  intros Hh Hq Ht.
  assert (Cut : forall c a b, contains (String c "") a = false ->
            (if contains (String c "") (a ++ String c "" ++ b)
             then unpack2 (splitn (String c "") (Some 1) (a ++ String c "" ++ b))
             else Ok (a ++ String c "" ++ b, "")) = Ok (a, b)).
  { intros c a b Ha. rewrite contains_mid, splitn_first;
      [| discriminate | reflexivity | now apply no_early_char].
    cbn [one_less option_map Nat.pred]. now rewrite splitn_budget_0. }
  destruct t as [|x t].
  - exists p, "", "". rewrite append_empty_r, Hh, Hq. split; reflexivity.
  - unfold opens_query_or_fragment in Ht. cbn [String.eqb orb startswith] in Ht.
    rewrite !andb_true_r in Ht. apply orb_true_iff in Ht.
    destruct Ht as [E|E]; apply Ascii.eqb_eq in E; subst x.
    + destruct (contains "#" t) eqn:Hc.
      * destruct (first_occurrence _ _ Hc) as [a [b [Et Hne]]].
        apply no_early_absent in Hne; [|discriminate].
        exists (p ++ "?" ++ a), b, a. split.
        -- rewrite Et.
           replace (p ++ String "?" (a ++ "#" ++ b)) with ((p ++ "?" ++ a) ++ "#" ++ b)
             by (rewrite !append_assoc; reflexivity).
           apply (Cut "#"%char).
           rewrite !contains_char_append, Hh, Hne. reflexivity.
        -- apply (Cut "?"%char). exact Hq.
      * exists (p ++ "?" ++ t), "", t. split.
        -- change (String "?" t) with ("?" ++ t).
           replace (contains "#" (p ++ "?" ++ t)) with false; [reflexivity|].
           rewrite !contains_char_append, Hh, Hc. reflexivity.
        -- apply (Cut "?"%char). exact Hq.
    + exists p, t, "". split.
      * apply (Cut "#"%char). exact Hh.
      * now rewrite Hq.
Qed.

(** [urlsplit] on a path-style S3 URL whose path has no reserved character,
    followed by nothing, a query or a fragment. *)
Lemma urlsplit_path_style_tail lib q t :
  free_of url_reserved q = true ->
  opens_query_or_fragment t = true ->
  exists qu fr,
    urlsplit lib ("https://s3.amazonaws.com/" ++ q ++ t) =
    Ok (mkSplitResult "https" "s3.amazonaws.com" ("/" ++ q) qu fr).
Proof.
  intros Hq Ht.
  assert (Hc : forall c, char_in c url_reserved = true ->
                         contains (String c "") ("/" ++ q) = false).
  { intros c Hc. rewrite contains_char_append, (free_of_contains _ _ _ Hq Hc).
    destruct c as [[] [] [] [] [] [] [] []]; try discriminate Hc; reflexivity. }
  unfold urlsplit.
  replace (lstrip _WHATWG_C0_CONTROL_OR_SPACE ("https://s3.amazonaws.com/" ++ q ++ t))
    with ("https://s3.amazonaws.com/" ++ q ++ t) by reflexivity.
  change (fold_left (fun u b => replace b "" u) _UNSAFE_URL_BYTES_TO_REMOVE
                    ("https://s3.amazonaws.com/" ++ q ++ t))
    with (remove_unsafe ("https://s3.amazonaws.com/" ++ q ++ t)).
  rewrite !remove_unsafe_append, (remove_unsafe_plain q Hq).
  replace (remove_unsafe "https://s3.amazonaws.com/") with "https://s3.amazonaws.com/"
    by reflexivity.
  apply remove_unsafe_opens in Ht. revert Ht. generalize (remove_unsafe t).
  clear t. intros t Ht.
  replace (split_scheme_off ("https://s3.amazonaws.com/" ++ q ++ t))
    with ("https", "//s3.amazonaws.com/" ++ q ++ t) by reflexivity.
  assert (Hn : _splitnetloc ("//s3.amazonaws.com/" ++ q ++ t) 2 =
               ("s3.amazonaws.com", "/" ++ q ++ t)).
  { unfold _splitnetloc. cbn [fold_left].
    replace (find "/" ("//s3.amazonaws.com/" ++ q ++ t) 2) with (Some 18) by reflexivity.
    replace (find "?" ("//s3.amazonaws.com/" ++ q ++ t) 2)
      with (find_at "?" (q ++ t) 19) by reflexivity.
    replace (find "#" ("//s3.amazonaws.com/" ++ q ++ t) 2)
      with (find_at "#" (q ++ t) 19) by reflexivity.
    assert (Hd : match find_at "#" (q ++ t) 19 with
                 | Some wdelim =>
                   Nat.min match find_at "?" (q ++ t) 19 with
                           | Some w => Nat.min (Nat.min (String.length
                                         ("//s3.amazonaws.com/" ++ q ++ t)) 18) w
                           | None => Nat.min (String.length
                                         ("//s3.amazonaws.com/" ++ q ++ t)) 18
                           end wdelim
                 | None =>
                   match find_at "?" (q ++ t) 19 with
                   | Some w => Nat.min (Nat.min (String.length
                                 ("//s3.amazonaws.com/" ++ q ++ t)) 18) w
                   | None => Nat.min (String.length
                                 ("//s3.amazonaws.com/" ++ q ++ t)) 18
                   end
                 end = 18).
    { rewrite length_append. change (String.length "//s3.amazonaws.com/") with 19.
      destruct (find_at "#" (q ++ t) 19) as [j|] eqn:E1;
        destruct (find_at "?" (q ++ t) 19) as [i|] eqn:E2;
        try apply find_at_ge in E1; try apply find_at_ge in E2; lia. }
    rewrite Hd. reflexivity. }
  unfold split_authority.
  replace (take 2 ("//s3.amazonaws.com/" ++ q ++ t) =? "//")%string with true by reflexivity.
  rewrite Hn.
  replace (contains "[" "s3.amazonaws.com") with false by reflexivity.
  replace (contains "]" "s3.amazonaws.com") with false by reflexivity.
  cbn [andb orb negb res_bind].
  destruct (cut_query_fragment ("/" ++ q) t) as (p1 & fr & qu & E1 & E2);
    [apply Hc; reflexivity | apply Hc; reflexivity | exact Ht |].
  rewrite append_assoc in E1. rewrite E1. cbn [res_bind]. rewrite E2.
  exists qu, fr. reflexivity.
Qed.

Lemma urlparse_path_style_tail lib q t :
  free_of url_reserved q = true ->
  opens_query_or_fragment t = true ->
  exists qu fr,
    urlparse lib ("https://s3.amazonaws.com/" ++ q ++ t) =
    Ok (mkParseResult "https" "s3.amazonaws.com" ("/" ++ q) "" qu fr).
Proof.
  intros Hq Ht. unfold urlparse.
  destruct (urlsplit_path_style_tail lib q t Hq Ht) as (qu & fr & ->).
  cbn [res_bind split_scheme split_path split_netloc split_query split_fragment].
  replace (contains ";" ("/" ++ q)) with false.
  - rewrite andb_false_r. exists qu, fr. reflexivity.
  - symmetry. rewrite contains_char_append.
    now rewrite (free_of_contains _ _ ";"%char Hq).
Qed.

End UrlFacts.

(** * Facts about the resolver *)

Section ResolverFacts.

Lemma startswith_contains sub s :
  startswith sub s = true -> contains sub s = true.
Proof. intros H. destruct s; simpl in *; rewrite H; reflexivity. Qed.

Lemma lstrip_slashes n s :
  startswith "/" s = false -> lstrip "/" (slashes n ++ s) = s.
Proof.
  intros H. induction n as [|n IH]; [|exact IH].
  destruct s as [|c s]; [reflexivity|].
  cbn [startswith] in H. rewrite andb_true_r in H.
  cbn [slashes append lstrip char_in].
  rewrite orb_false_r, Ascii.eqb_sym, H. reflexivity.
Qed.


Lemma starts_without_slash b t :
  b <> "" -> contains "/" b = false -> startswith "/" (b ++ t) = false.
Proof.
  intros Hb Hc. destruct b as [|c b]; [contradiction|].
  rewrite contains_char_cons in Hc. apply orb_false_iff in Hc.
  cbn [append startswith]. now rewrite (proj1 Hc).
Qed.

Lemma split_at_first_slash b k :
  contains "/" b = false -> splitn "/" (Some 1) (b ++ "/" ++ k) = [b; k].
Proof.
  intros Hb. rewrite splitn_first.
  - simpl one_less. now rewrite splitn_budget_0.
  - discriminate.
  - reflexivity.
  - now apply no_early_char.
Qed.

(** The path-style branch, read off the path that [urlparse] returns. *)
Lemma extract_path_style lib url r n b :
  contains ".s3." url = false ->
  urlparse lib url = Ok r ->
  contains "/" b = false ->
  (forall k, b <> "" -> path r = slashes n ++ b ++ "/" ++ k ->
             extract_bucket_and_key lib url = Ok (b, k)) /\
  (path r = slashes n ++ b -> extract_bucket_and_key lib url = Ok (b, "")).
Proof.
  intros Hs Hr Hb. unfold extract_bucket_and_key. rewrite Hs, Hr. cbn [res_bind].
  split.
  - intros k Hne ->.
    rewrite lstrip_slashes by now apply starts_without_slash.
    now rewrite split_at_first_slash.
  - intros ->.
    rewrite lstrip_slashes.
    + now rewrite splitn_absent.
    + destruct (startswith "/" b) eqn:E; [|reflexivity].
      apply startswith_contains in E. congruence.
Qed.


(** The virtual-hosted branch never raises, and its key is a suffix of the
    URL: the whole URL, or what follows an occurrence of the marker. *)
Lemma extract_virtual lib url :
  contains ".s3." url = true ->
  exists b pre k,
    extract_bucket_and_key lib url = Ok (b, k) /\ url = pre ++ k /\
    (pre = "" \/ exists p, pre = p ++ ".amazonaws.com/").
Proof.
  intros Hs.
  destruct (first_occurrence _ _ Hs) as [a [t [E Hne]]].
  assert (Ha : getitem (split ".s3." url) 0 = Ok a).
  { unfold split. rewrite E, splitn_first by (auto; discriminate). reflexivity. }
  destruct (split_last_suffix "/" a) as (p1 & b & Hb & _); [discriminate|].
  destruct (split_last_suffix ".amazonaws.com/" url) as (pre & k & Hk & Eu & Hp);
    [discriminate|].
  exists b, pre, k. split; [|auto].
  unfold extract_bucket_and_key. rewrite Hs, Ha. cbn [res_bind].
  rewrite Hb. cbn [res_bind]. rewrite Hk. cbn [res_bind].
  unfold split. rewrite join_splitn by discriminate. reflexivity.
Qed.


(** A path-style S3 URL resolves to its bucket and key whatever query or
    fragment follows. *)
Lemma extract_path_style_tail lib B K t :
  B <> "" ->
  contains "/" B = false ->
  free_of url_reserved B = true ->
  free_of url_reserved K = true ->
  opens_query_or_fragment t = true ->
  contains ".s3." ("https://s3.amazonaws.com/" ++ B ++ "/" ++ K ++ t) = false ->
  extract_bucket_and_key lib ("https://s3.amazonaws.com/" ++ B ++ "/" ++ K ++ t)
  = Ok (B, K).
Proof.
  intros HB Hslash HfB HfK Ht Hs.
  assert (Hq : free_of url_reserved (B ++ "/" ++ K) = true).
  { rewrite !free_of_append, HfB, HfK. reflexivity. }
  destruct (urlparse_path_style_tail lib _ t Hq Ht) as (qu & fr & Hp).
  rewrite !append_assoc in Hp.
  destruct (extract_path_style lib _ _ 1 B Hs Hp Hslash) as [H _].
  apply H; [exact HB | reflexivity].
Qed.

Lemma startswith_shorter p u v :
  startswith p (u ++ v) = true -> String.length p <= String.length u ->
  startswith p u = true.
Proof.
  revert u. induction p as [|c p IH]; intros u H L; [reflexivity|].
  destruct u as [|d u]; [simpl in L; lia|].
  cbn [append startswith] in *. apply andb_true_iff in H. destruct H as [H1 H2].
  rewrite H1. apply IH; [exact H2 | simpl in L; lia].
Qed.

Lemma length_take n s : n <= String.length s -> String.length (take n s) = n.
Proof.
  revert s. induction n as [|n IH]; intros [|c s] L; try reflexivity.
  - simpl in L. lia.
  - simpl in *. rewrite IH; lia.
Qed.

(** No occurrence starts inside [a] when [a], followed by all but the last
    character of [sep], does not hold [sep]. *)
Lemma no_early_of_absent sep a b :
  sep <> "" ->
  contains sep (a ++ take (String.length sep - 1) sep) = false ->
  no_early sep a (sep ++ b).
Proof.
  intros Hsep Ha a1 c a2 ->.
  destruct (startswith sep (String c a2 ++ sep ++ b)) eqn:E; [|reflexivity].
  rewrite <- (take_drop (String.length sep - 1) sep) in E at 2.
  rewrite append_assoc, <- (append_assoc (String c a2)) in E.
  apply startswith_shorter in E.
  - rewrite append_assoc in Ha.
    rewrite (contains_append_r _ a1 _ (startswith_contains _ _ E)) in Ha.
    discriminate.
  - rewrite length_append, length_take by lia. simpl. lia.
Qed.

(** Where the virtual-hosted branch is right: [.s3.] first occurs right
    after the bucket, and the key does not hold [.amazonaws.com/]. *)
Lemma extract_virtual_hosted lib B R K :
  contains "/" B = false ->
  contains ".s3." ("https://" ++ B ++ ".s3") = false ->
  contains ".amazonaws.com/" K = false ->
  extract_bucket_and_key lib
    ("https://" ++ B ++ ".s3." ++ R ++ ".amazonaws.com/" ++ K) = Ok (B, K).
Proof.
  intros HB Hs3 HK.
  set (url := "https://" ++ B ++ ".s3." ++ R ++ ".amazonaws.com/" ++ K).
  assert (E1 : url = ("https://" ++ B) ++ ".s3." ++ (R ++ ".amazonaws.com/" ++ K))
    by (unfold url; now rewrite !append_assoc).
  assert (E2 : url = ("https://" ++ B ++ ".s3." ++ R) ++ ".amazonaws.com/" ++ K)
    by (unfold url; now rewrite !append_assoc).
  assert (Hc : contains ".s3." url = true) by (rewrite E1; apply contains_mid).
  assert (Hp : getitem (split ".s3." url) 0 = Ok ("https://" ++ B)).
  { rewrite E1. unfold split. rewrite splitn_first; [reflexivity | discriminate | reflexivity |].
    apply no_early_of_absent; [discriminate|].
    rewrite append_assoc. exact Hs3. }
  assert (Hb : getitem_last (split "/" ("https://" ++ B)) = Ok B).
  { change ("https://" ++ B) with ("https:/" ++ "/" ++ B).
    rewrite split_char_append. unfold split at 2.
    rewrite (splitn_absent "/" None B HB). apply getitem_last_app. }
  assert (Hk : getitem_last (split ".amazonaws.com/" url) = Ok K).
  { rewrite E2. apply split_last_piece; auto. discriminate. }
  unfold extract_bucket_and_key. rewrite Hc, Hp. cbn [res_bind].
  rewrite Hb. cbn [res_bind]. rewrite Hk. cbn [res_bind].
  unfold split. rewrite join_splitn by discriminate. reflexivity.
Qed.

End ResolverFacts.

(** * Facts about runs and probes *)

Section RunFacts.

Lemma calls_app t1 t2 : calls (t1 ++ t2) = (calls t1 ++ calls t2)%list.
Proof.
  induction t1 as [|e t1 IH]; [reflexivity|].
  destruct e; simpl; rewrite IH; reflexivity.
Qed.

Lemma trace_bind {A B} (m : Run A) (k : A -> Run B) :
  trace (bind m k) =
  (trace m ++ match outcome m with Ok a => trace (k a) | Raise _ => [] end)%list.
Proof.
  destruct m as [t [a|x]]; simpl.
  - destruct (k a); reflexivity.
  - now rewrite app_nil_r.
Qed.

Lemma outcome_bind {A B} (m : Run A) (k : A -> Run B) :
  outcome (bind m k) =
  match outcome m with Ok a => outcome (k a) | Raise x => Raise x end.
Proof.
  destruct m as [t [a|x]]; simpl; [destruct (k a)|]; reflexivity.
Qed.

Lemma calls_bind {A B} (m : Run A) (k : A -> Run B) :
  calls (trace (bind m k)) =
  (calls (trace m) ++
   match outcome m with Ok a => calls (trace (k a)) | Raise _ => [] end)%list.
Proof.
  rewrite trace_bind, calls_app. destruct (outcome m); reflexivity.
Qed.

Lemma for_each_prints {A} (l : list A) (body : A -> Run unit) :
  (forall a, calls (trace (body a)) = [] /\ outcome (body a) = Ok tt) ->
  calls (trace (for_each l body)) = [] /\ outcome (for_each l body) = Ok tt.
Proof.
  intros H. induction l as [|a l [IH1 IH2]]; [split; reflexivity|].
  cbn [for_each]. destruct (H a) as [H1 H2].
  rewrite calls_bind, outcome_bind, H1, H2, IH1, IH2. split; reflexivity.
Qed.

(** Every probe issues exactly one remote call, first of all. *)
Ltac split_ifs :=
  repeat match goal with
         | |- context [if ?b then _ else _] => destruct b
         end.

Lemma check_bucket_exists_run s3 c b :
  calls (trace (check_bucket_exists s3 c b)) = [(c, HeadBucket b)] /\
  (outcome (check_bucket_exists s3 c b) = Ok true <-> head_bucket s3 c b = Ok tt) /\
  (forall e, head_bucket s3 c b = Raise (ClientErrorExn e) ->
             outcome (check_bucket_exists s3 c b) = Ok false).
Proof.
  unfold check_bucket_exists, remote.
  destruct (head_bucket s3 c b) as [[]|[| | |e|n]]; cbn.
  1-4,6: repeat split; intros; congruence.
  split_ifs; cbn; repeat split; intros; congruence.
Qed.

Lemma check_bucket_location_run s3 c b :
  calls (trace (check_bucket_location s3 c b)) = [(c, GetBucketLocation b)] /\
  (forall lc, get_bucket_location s3 c b = Ok lc ->
              outcome (check_bucket_location s3 c b) = Ok (Some (or_default lc "us-east-1"))) /\
  (forall e, get_bucket_location s3 c b = Raise (ClientErrorExn e) ->
             outcome (check_bucket_location s3 c b) = Ok None).
Proof.
  unfold check_bucket_location, remote.
  destruct (get_bucket_location s3 c b) as [lc|[| | |e|n]]; cbn;
    repeat split; intros; congruence.
Qed.

Lemma trace_try_except {A} (body : Run A) (h : ClientError -> Run A) :
  trace (try_except body h) =
  (trace body ++
   match outcome body with
   | Raise (ClientErrorExn e) => trace (h e)
   | _ => []
   end)%list.
Proof.
  destruct body as [t [a|[| | |e|n]]]; cbn; try (now rewrite app_nil_r).
  destruct (h e); reflexivity.
Qed.

Lemma outcome_try_except {A} (body : Run A) (h : ClientError -> Run A) :
  outcome (try_except body h) =
  match outcome body with
  | Raise (ClientErrorExn e) => outcome (h e)
  | r => r
  end.
Proof.
  destruct body as [t [a|[| | |e|n]]]; cbn; try reflexivity.
  destruct (h e); reflexivity.
Qed.

(** A probe is a remote call, a continuation and a handler; when the last
    two only print, the call of the probe is its only one. *)
Lemma probe_calls {A B} c op (answer : res A) (k : A -> Run B)
      (h : ClientError -> Run B) :
  (forall a, calls (trace (k a)) = []) ->
  (forall e, calls (trace (h e)) = []) ->
  calls (trace (try_except (bind (remote c op answer) k) h)) = [(c, op)].
Proof.
  intros Hk Hh. rewrite trace_try_except, calls_app, calls_bind, outcome_bind.
  destruct answer as [a|[| | |e|n]]; cbn [remote trace outcome fst snd calls app];
    rewrite ?Hk, ?Hh; try reflexivity.
  destruct (outcome (k a)) as [|[| | |e|n]]; rewrite ?Hh; reflexivity.
Qed.

Lemma check_object_metadata_calls s3 c b k :
  calls (trace (check_object_metadata s3 c b k)) = [(c, HeadObject b k)].
Proof.
  apply probe_calls; [intros md | reflexivity].
  rewrite !calls_bind.
  destruct (for_each_prints md
    (fun '(k0, v) => if negb (k0 =? "ResponseMetadata")%string
                     then print (k0 ++ ": " ++ v) else ret tt)) as [H1 H2].
  { intros [k0 v]. destruct (negb _); split; reflexivity. }
  cbn [print outcome trace fst snd calls app]. rewrite H1, H2. reflexivity.
Qed.

Lemma list_similar_objects_calls s3 c b k :
  calls (trace (list_similar_objects s3 c b k)) =
  [(c, ListObjectsV2 b (listing_prefix k) 10)].
Proof.
  apply probe_calls; [intros [contents|] | ]; reflexivity.
Qed.

Lemma check_bucket_policy_calls s3 c b :
  calls (trace (check_bucket_policy s3 c b)) = [(c, GetBucketPolicy b)].
Proof.
  apply probe_calls; [reflexivity | intros e].
  destruct (err_code e) as [code|]; [|reflexivity].
  destruct (code =? "NoSuchBucketPolicy")%string; reflexivity.
Qed.

Lemma check_bucket_acl_calls s3 c b :
  calls (trace (check_bucket_acl s3 c b)) = [(c, GetBucketAcl b)].
Proof.
  apply probe_calls; [intros acl | reflexivity].
  rewrite !calls_bind.
  destruct (for_each_prints acl
    (fun grant =>
       (print ("- Grantee: " ++
               match grantee_DisplayName grant with Some n => n | None => "Unknown" end) ;;;
        print ("  Permission: " ++ grant_Permission grant))%run)) as [H1 H2].
  { intros g. split; reflexivity. }
  cbn [print outcome trace fst snd calls app]. rewrite H1. reflexivity.
Qed.

(** The policy probe on an error response that carries a code. *)
Lemma check_bucket_policy_error s3 c b e code :
  get_bucket_policy s3 c b = Raise (ClientErrorExn e) ->
  err_code e = Some code ->
  check_bucket_policy s3 c b =
  ([Call c (GetBucketPolicy b); Print (policy_error_message code e)], Ok tt).
Proof.
  intros H Hc. unfold check_bucket_policy, policy_error_message.
  rewrite H. cbn. rewrite Hc.
  destruct (code =? "NoSuchBucketPolicy")%string; reflexivity.
Qed.

Lemma check_bucket_acl_first s3 c b :
  exists t, trace (check_bucket_acl s3 c b) = Call c (GetBucketAcl b) :: t.
Proof.
  unfold check_bucket_acl. rewrite trace_try_except, trace_bind.
  cbn [remote trace fst app]. eexists. reflexivity.
Qed.

Lemma calls_probe_tail s3 c b k :
  exists n,
    calls (trace (probe_tail s3 c b k)) = firstn (S n) (probes_after_location c b k) /\
    (outcome (probe_tail s3 c b k) = Ok tt -> 3 <= n).
Proof.
  unfold probe_tail. rewrite !calls_bind, !outcome_bind.
  rewrite check_object_metadata_calls, list_similar_objects_calls,
    check_bucket_policy_calls, check_bucket_acl_calls.
  destruct (outcome (check_object_metadata s3 c b k));
    [|exists 0; split; [reflexivity | discriminate]].
  destruct (outcome (list_similar_objects s3 c b k));
    [|exists 1; split; [reflexivity | discriminate]].
  destruct (outcome (check_bucket_policy s3 c b));
    [|exists 2; split; [reflexivity | discriminate]].
  exists 3. split; [reflexivity | lia].
Qed.

Lemma bind_lift_ok {A B} (a : A) (k : A -> Run B) : bind (lift (Ok a)) k = k a.
Proof. unfold bind, lift. destruct (k a). reflexivity. Qed.

Ltac run_step :=
  rewrite ?calls_bind, ?outcome_bind, ?trace_bind;
  cbn [print ret outcome trace fst snd calls app negb].

(** The run up to and including the location probe, when the existence probe
    passes and the location probe does not end the run. *)
Lemma debug_s3_access_reaches_tail lib s3 url profile region b k actual :
  extract_bucket_and_key lib url = Ok (b, k) ->
  head_bucket s3 (client (mkSession profile) "s3" region) b = Ok tt ->
  outcome (check_bucket_location s3 (client (mkSession profile) "s3" region) b) = Ok actual ->
  let run := debug_s3_access lib s3 url profile region in
  let tail := probe_tail s3 (next_client profile region actual) b k in
  calls (trace run) =
    (client (mkSession profile) "s3" region, HeadBucket b) ::
    (client (mkSession profile) "s3" region, GetBucketLocation b) ::
    calls (trace tail) /\
  outcome run = outcome tail /\
  exists pre, trace run = (pre ++ trace tail)%list.
Proof.
  intros He Hh Hl run tail. subst run tail.
  set (c0 := client (mkSession profile) "s3" region) in *.
  destruct (check_bucket_exists_run s3 c0 b) as (E1 & E2 & _).
  destruct (check_bucket_location_run s3 c0 b) as (L1 & _).
  apply E2 in Hh.
  unfold debug_s3_access. rewrite He, bind_lift_ok. fold c0. cbv iota beta.
  assert (Hc : exists t,
    (if truthy actual && truthy region && negb (opt_eqb actual region)
     then (print ("[yellow]Warning: Specified region " ++ fmt region ++
                  " differs from bucket region " ++ fmt actual ++ "[/yellow]") ;;;
           ret (client (mkSession profile) "s3" actual))%run
     else ret c0) = (t, Ok (next_client profile region actual)) /\ calls t = []).
  { unfold next_client. fold c0.
    destruct (truthy actual && truthy region && negb (opt_eqb actual region));
      eexists; split; reflexivity. }
  destruct Hc as (tc & Hc & Hcs).
  unfold probe_tail.
  split; [|split].
  - do 6 ((run_step; rewrite ?Hh, ?Hl, ?Hc, ?E1, ?L1, ?Hcs;
                      cbn [outcome trace fst snd calls app])).
    reflexivity.
  - do 6 ((run_step; rewrite ?Hh, ?Hl, ?Hc;
                      cbn [outcome trace fst snd calls app])).
    reflexivity.
  - do 6 ((run_step; rewrite ?Hh, ?Hl, ?Hc;
                      cbn [outcome trace fst snd calls app])).
    exists ([Print ("[bold]Analyzing URL: " ++ url ++ "[/bold]");
             Print ("Bucket: " ++ b); Print ("Key: " ++ k ++ nl)] ++
            trace (check_bucket_exists s3 c0 b) ++
            trace (check_bucket_location s3 c0 b) ++ tc)%list.
    rewrite <- !app_assoc. reflexivity.
Qed.

Lemma debug_s3_access_no_target lib s3 url profile region x :
  extract_bucket_and_key lib url = Raise x ->
  debug_s3_access lib s3 url profile region = ([], Raise x).
Proof. intros H. unfold debug_s3_access. rewrite H. reflexivity. Qed.

(** A run whose existence probe does not pass stops after it. *)
Lemma debug_s3_access_stops_at_existence lib s3 url profile region b k x :
  extract_bucket_and_key lib url = Ok (b, k) ->
  head_bucket s3 (client (mkSession profile) "s3" region) b = Raise x ->
  let run := debug_s3_access lib s3 url profile region in
  calls (trace run) = [(client (mkSession profile) "s3" region, HeadBucket b)] /\
  (forall e, x = ClientErrorExn e -> outcome run = Ok tt).
Proof.
  intros He Hh run. subst run.
  set (c0 := client (mkSession profile) "s3" region) in *.
  destruct (check_bucket_exists_run s3 c0 b) as (E1 & E2 & E3).
  unfold debug_s3_access. rewrite He, bind_lift_ok. fold c0. cbv iota beta.
  split.
  - do 4 (run_step; rewrite ?E1). 
    destruct (outcome (check_bucket_exists s3 c0 b)) as [[|]|y] eqn:Ho;
      try reflexivity.
    pose proof (proj1 E2 eq_refl). congruence.
  - intros e ->. specialize (E3 e Hh).
    do 4 (run_step; rewrite ?E3). reflexivity.
Qed.

(** A run whose location probe ends with an uncaught exception stops there. *)
Lemma debug_s3_access_stops_at_location lib s3 url profile region b k x :
  extract_bucket_and_key lib url = Ok (b, k) ->
  head_bucket s3 (client (mkSession profile) "s3" region) b = Ok tt ->
  outcome (check_bucket_location s3 (client (mkSession profile) "s3" region) b) = Raise x ->
  calls (trace (debug_s3_access lib s3 url profile region)) =
  [(client (mkSession profile) "s3" region, HeadBucket b);
   (client (mkSession profile) "s3" region, GetBucketLocation b)].
Proof.
  intros He Hh Hl.
  set (c0 := client (mkSession profile) "s3" region) in *.
  destruct (check_bucket_exists_run s3 c0 b) as (E1 & E2 & _).
  destruct (check_bucket_location_run s3 c0 b) as (L1 & _).
  apply E2 in Hh.
  unfold debug_s3_access. rewrite He, bind_lift_ok. fold c0. cbv iota beta.
  do 5 (run_step; rewrite ?Hh, ?Hl, ?E1, ?L1;
        cbn [outcome trace fst snd calls app]).
  reflexivity.
Qed.

(** When the tail reaches the policy probe, the ACL probe is what follows. *)
Lemma probe_tail_policy s3 c1 bk k c b :
  In (c, GetBucketPolicy b) (calls (trace (probe_tail s3 c1 bk k))) ->
  c = c1 /\ b = bk /\
  exists pre,
    trace (probe_tail s3 c1 bk k) =
    (pre ++ trace (check_bucket_policy s3 c1 bk) ++
     match outcome (check_bucket_policy s3 c1 bk) with
     | Ok _ => trace (check_bucket_acl s3 c1 bk)
     | Raise _ => []
     end)%list.
Proof.
  unfold probe_tail. rewrite !calls_bind, !trace_bind.
  rewrite check_object_metadata_calls, list_similar_objects_calls,
    check_bucket_policy_calls, check_bucket_acl_calls.
  destruct (outcome (check_object_metadata s3 c1 bk k)).
  - destruct (outcome (list_similar_objects s3 c1 bk k)).
    + intros H. assert (E : (c, GetBucketPolicy b) = (c1, GetBucketPolicy bk)).
      { cbn [app] in H.
        destruct (outcome (check_bucket_policy s3 c1 bk)); cbn [app] in H;
          repeat (destruct H as [H|H]; try discriminate H; try contradiction);
          now symmetry. }
      injection E as -> ->. split; [reflexivity|]. split; [reflexivity|].
      exists (trace (check_object_metadata s3 c1 bk k) ++
              trace (list_similar_objects s3 c1 bk k))%list.
      rewrite <- !app_assoc. reflexivity.
    + cbn [app]. intros H.
      repeat (destruct H as [H|H]; try discriminate H; try contradiction).
  - cbn [app]. intros H.
    repeat (destruct H as [H|H]; try discriminate H; try contradiction).
Qed.



End RunFacts.

(** * The resolver: worked examples *)

Example split_examples :
  split ".s3." "https://b.s3.r.amazonaws.com/k" = ["https://b"; "r.amazonaws.com/k"] /\
  split "/" "a//b/" = ["a"; ""; "b"; ""] /\
  splitn "/" (Some 1) "a/b/c" = ["a"; "b/c"] /\
  split "aa" "aaa" = [""; "a"] /\
  split "/" "" = [""].
Proof. repeat split; reflexivity. Qed.

Example urlparse_examples :
  urlparse strict "HTTPS://user@h:80/a/b;c?d#e" =
    Ok (mkParseResult "https" "user@h:80" "/a/b" "c" "d" "e") /\
  urlparse strict "//host/a;b/c" = Ok (mkParseResult "" "host" "/a;b/c" "" "" "") /\
  urlparse strict "s3://bucket/key" = Ok (mkParseResult "s3" "bucket" "/key" "" "" "") /\
  urlparse strict "https://[::1" = Raise ValueError.
Proof. repeat split; reflexivity. Qed.

Example resolve_virtual_hosted_example lib :
  extract_bucket_and_key lib "https://my-bucket.s3.us-west-2.amazonaws.com/folder/file.txt"
  = Ok ("my-bucket", "folder/file.txt").
Proof. reflexivity. Qed.

Example resolve_path_style_example lib :
  extract_bucket_and_key lib "https://s3.amazonaws.com/my-bucket/folder/file.txt"
  = Ok ("my-bucket", "folder/file.txt").
Proof. reflexivity. Qed.

(** * The claims about the resolver *)

(** C1.  The claim: for every bucket [B] and key [K], the virtual-hosted URL
    [https://B.s3.R.amazonaws.com/K] resolves to [(B, K)].  The code does not
    do so: at [B = my-bucket], [R = us-west-2] and
    [K = mirror/logs.amazonaws.com/file.txt] it returns the key [file.txt],
    because it keeps what follows the last [.amazonaws.com/] of the URL. *)
Theorem C1_virtual_hosted_key_cut_short :
  forall lib,
    let B := "my-bucket" in
    let K := "mirror/logs.amazonaws.com/file.txt" in
    let url := "https://" ++ B ++ ".s3." ++ "us-west-2" ++ ".amazonaws.com/" ++ K in
    extract_bucket_and_key lib url = Ok ("my-bucket", "file.txt") /\
    extract_bucket_and_key lib url <> Ok (B, K).
Proof. intros lib. split; [reflexivity | discriminate]. Qed.

(** C2.  The claim: when the host holds [.s3.], the bucket is the host label
    before [.s3.] and the key is everything after the first occurrence of
    [.amazonaws.com/] in the URL.  The code does not do so for the key: at
    [https://assets.s3.eu-west-1.amazonaws.com/cdn.amazonaws.com/logo.png]
    the text after the first occurrence is [cdn.amazonaws.com/logo.png], and
    the resolver returns [logo.png]. *)
Theorem C2_key_follows_last_marker :
  forall lib,
    let url := "https://assets.s3.eu-west-1.amazonaws.com/cdn.amazonaws.com/logo.png" in
    spec_key_after_first_marker url = Some "cdn.amazonaws.com/logo.png" /\
    extract_bucket_and_key lib url = Ok ("assets", "logo.png").
Proof. intros lib. split; reflexivity. Qed.

(** C3, as stated, fails: with the key [report.txt?versionId=3] the path-style
    URL [https://s3.amazonaws.com/my-bucket/report.txt?versionId=3] resolves
    to the key [report.txt], since only the parsed path is used. *)
Lemma C3_counterexample :
  extract_bucket_and_key lenient
    ("https://s3.amazonaws.com/" ++ "my-bucket" ++ "/" ++ "report.txt?versionId=3")
  = Ok ("my-bucket", "report.txt") /\
  extract_bucket_and_key lenient
    ("https://s3.amazonaws.com/" ++ "my-bucket" ++ "/" ++ "report.txt?versionId=3")
  <> Ok ("my-bucket", "report.txt?versionId=3").
Proof. split; [reflexivity | discriminate]. Qed.

(** C3, amended.  For every non-empty bucket name [B] without [/] and every
    key [K], neither holding a tab, line feed, carriage return, [?], [#] or
    [;]: the path-style URL [https://s3.amazonaws.com/B/K] resolves to
    [(B, K)], and [https://s3.amazonaws.com/B] resolves to [(B, "")],
    provided the URL does not hold [.s3.] (such a URL is taken for a
    virtual-hosted one). *)
Theorem C3_path_style_resolves :
  forall lib B K,
    B <> "" ->
    contains "/" B = false ->
    free_of url_reserved B = true ->
    free_of url_reserved K = true ->
    (contains ".s3." ("https://s3.amazonaws.com/" ++ B ++ "/" ++ K) = false ->
     extract_bucket_and_key lib ("https://s3.amazonaws.com/" ++ B ++ "/" ++ K)
     = Ok (B, K)) /\
    (contains ".s3." ("https://s3.amazonaws.com/" ++ B) = false ->
     extract_bucket_and_key lib ("https://s3.amazonaws.com/" ++ B) = Ok (B, "")).
Proof.
  intros lib B K HB Hslash HfB HfK. split; intros Hs.
  - pose proof (extract_path_style_tail lib B K "" HB Hslash HfB HfK eq_refl) as H.
    rewrite append_empty_r in H. exact (H Hs).
  - destruct (urlparse_path_style_tail lib B "" HfB eq_refl) as (qu & fr & Hp).
    rewrite append_empty_r in Hp.
    destruct (extract_path_style lib _ _ 1 B Hs Hp Hslash) as [_ H].
    apply H. reflexivity.
Qed.

Lemma C3_path_style_resolves_witness :
  extract_bucket_and_key lenient "https://s3.amazonaws.com/my-bucket/folder/file.txt"
    = Ok ("my-bucket", "folder/file.txt") /\
  extract_bucket_and_key lenient "https://s3.amazonaws.com/my-bucket"
    = Ok ("my-bucket", "").
Proof.
  destruct (C3_path_style_resolves lenient "my-bucket" "folder/file.txt")
    as [H1 H2]; [discriminate | reflexivity | reflexivity | reflexivity |].
  split; [apply H1 | apply H2]; reflexivity.
Defined.

(** C4, as stated, fails: the path of
    [https://s3.amazonaws.com//my-bucket/file.txt] begins with two slashes and
    its host holds no [.s3.]; stripping a single slash would give an empty
    bucket, but the resolver returns the bucket [my-bucket]. *)
Lemma C4_counterexample :
  urlparse lenient "https://s3.amazonaws.com//my-bucket/file.txt" =
    Ok (mkParseResult "https" "s3.amazonaws.com" "//my-bucket/file.txt" "" "" "") /\
  contains ".s3." "s3.amazonaws.com" = false /\
  spec_path_style "//my-bucket/file.txt" = ("", "my-bucket/file.txt") /\
  extract_bucket_and_key lenient "https://s3.amazonaws.com//my-bucket/file.txt"
    = Ok ("my-bucket", "file.txt").
Proof. repeat split; reflexivity. Qed.

(** C4, amended.  For every URL that does not hold [.s3.] and that
    [urlparse] accepts, the resolver takes the parsed path, strips all its
    leading slashes, and splits the rest at its first [/]: a path made of [n]
    slashes, a non-empty [b] without [/], a [/] and [k] gives [(b, k)], and a
    path made of [n] slashes and a [b] without [/] gives [(b, "")].  So a
    path that begins with two slashes gives the same bucket as with one. *)
Theorem C4_path_style_rule :
  forall lib url r n b,
    contains ".s3." url = false ->
    urlparse lib url = Ok r ->
    contains "/" b = false ->
    (forall k, b <> "" -> path r = slashes n ++ b ++ "/" ++ k ->
               extract_bucket_and_key lib url = Ok (b, k)) /\
    (path r = slashes n ++ b -> extract_bucket_and_key lib url = Ok (b, "")).
Proof. exact extract_path_style. Qed.

Lemma C4_path_style_rule_witness :
  extract_bucket_and_key lenient "https://s3.amazonaws.com//my-bucket/file.txt"
    = Ok ("my-bucket", "file.txt") /\
  extract_bucket_and_key lenient "https://s3.amazonaws.com/my-bucket/file.txt"
    = Ok ("my-bucket", "file.txt").
Proof.
  split.
  - refine (proj1 (C4_path_style_rule lenient _ _ 2 "my-bucket" _ _ _) "file.txt" _ _);
      try reflexivity; discriminate.
  - refine (proj1 (C4_path_style_rule lenient _ _ 1 "my-bucket" _ _ _) "file.txt" _ _);
      try reflexivity; discriminate.
Defined.

(** C8.  The prefix that the similar-objects listing probe uses is the key
    without its last [/]-delimited segment: whatever the service answers, the
    one remote call of the probe is [list_objects_v2] with that [Prefix] (and
    [MaxKeys] 10).  The key [folder/sub/file.txt] gives the prefix
    [folder/sub]; a key without [/] (the empty key too) gives the empty
    prefix; in general [dir/name] with no [/] in [name] gives [dir]. *)
Theorem C8_listing_prefix :
  forall s3 c b,
    calls (trace (list_similar_objects s3 c b "folder/sub/file.txt")) =
      [(c, ListObjectsV2 b "folder/sub" 10)] /\
    (forall key, contains "/" key = false ->
                 calls (trace (list_similar_objects s3 c b key)) =
                 [(c, ListObjectsV2 b "" 10)]) /\
    (forall dir name, contains "/" name = false ->
                      calls (trace (list_similar_objects s3 c b (dir ++ "/" ++ name))) =
                      [(c, ListObjectsV2 b dir 10)]).
Proof.
  intros s3 c b.
  assert (Hflat : forall key, contains "/" key = false -> listing_prefix key = "").
  { intros key H. unfold listing_prefix, split.
    rewrite splitn_absent by assumption. reflexivity. }
  assert (Hdir : forall dir name, contains "/" name = false ->
                                  listing_prefix (dir ++ "/" ++ name) = dir).
  { intros dir name H. unfold listing_prefix.
    rewrite split_char_append. unfold split at 2.
    rewrite splitn_absent by assumption.
    rewrite drop_last_app. unfold split.
    apply join_splitn. discriminate. }
  split; [|split].
  - rewrite list_similar_objects_calls. reflexivity.
  - intros key H. now rewrite list_similar_objects_calls, (Hflat key H).
  - intros dir name H. now rewrite list_similar_objects_calls, (Hdir dir name H).
Qed.

Lemma C8_listing_prefix_witness :
  calls (trace (list_similar_objects sample_service (client (mkSession None) "s3" None)
                                     "my-bucket" "")) =
    [(client (mkSession None) "s3" None, ListObjectsV2 "my-bucket" "" 10)] /\
  calls (trace (list_similar_objects sample_service (client (mkSession None) "s3" None)
                                     "my-bucket" "file.txt")) =
    [(client (mkSession None) "s3" None, ListObjectsV2 "my-bucket" "" 10)] /\
  calls (trace (list_similar_objects sample_service (client (mkSession None) "s3" None)
                                     "my-bucket" ("a/b" ++ "/" ++ "c.txt"))) =
    [(client (mkSession None) "s3" None, ListObjectsV2 "my-bucket" "a/b" 10)].
Proof.
  destruct (C8_listing_prefix sample_service (client (mkSession None) "s3" None)
                              "my-bucket") as [_ [H1 H2]].
  split; [apply H1; reflexivity|].
  split; [apply H1; reflexivity | apply H2; reflexivity].
Defined.



(** * The claims about the probe sequence *)

(** C5.  When the existence probe does not pass, whatever the error ("not
    found", "forbidden", any other error response, or any other exception of
    the client), the run issues no remote call but the existence query; and
    after an error response the run ends normally. *)
Theorem C5_existence_failure_aborts :
  forall lib s3 url profile region b k x,
    extract_bucket_and_key lib url = Ok (b, k) ->
    head_bucket s3 (client (mkSession profile) "s3" region) b = Raise x ->
    calls (trace (debug_s3_access lib s3 url profile region)) =
      [(client (mkSession profile) "s3" region, HeadBucket b)] /\
    (forall e, x = ClientErrorExn e ->
               outcome (debug_s3_access lib s3 url profile region) = Ok tt).
Proof. exact debug_s3_access_stops_at_existence. Qed.

Lemma C5_existence_failure_aborts_witness :
  calls (trace (debug_s3_access lenient forbidden_service sample_url None None)) =
  [(client (mkSession None) "s3" None, HeadBucket "my-bucket")].
Proof.
  refine (proj1 (C5_existence_failure_aborts lenient forbidden_service _ None None
                   "my-bucket" "folder/file.txt" _ _ _)); reflexivity.
Defined.



(** An empty [--region] value is no hint: the bucket is in [eu-west-1], and
    the later probes still run on the original client. *)
Example empty_region_hint_keeps_client :
  supplied_hint (Some "") = None /\
  get_bucket_location sample_service (client (mkSession None) "s3" (Some "")) "my-bucket"
    = Ok (Some "eu-west-1") /\
  later_probes_use (client (mkSession None) "s3" (Some ""))
      (client (mkSession None) "s3" (Some ""))
      "my-bucket" "folder/file.txt"
      (debug_s3_access lenient sample_service sample_url None (Some "")).
Proof.
  repeat split. exists 3. split; [reflexivity | intros _; lia].
Qed.

(** C9.  When the location query succeeds with a null or empty
    [LocationConstraint], the location probe prints and returns the region
    [us-east-1]. *)
Theorem C9_location_default_region :
  forall s3 c b lc,
    get_bucket_location s3 c b = Ok lc ->
    lc = None \/ lc = Some "" ->
    check_bucket_location s3 c b =
    ([Call c (GetBucketLocation b); Print "[green]Bucket region: us-east-1[/green]"],
     Ok (Some "us-east-1")).
Proof.
  intros s3 c b lc H Hlc. unfold check_bucket_location. rewrite H.
  destruct Hlc as [-> | ->]; reflexivity.
Qed.

Lemma C9_location_default_region_witness :
  check_bucket_location forbidden_service (client (mkSession None) "s3" None) "my-bucket" =
  ([Call (client (mkSession None) "s3" None) (GetBucketLocation "my-bucket");
    Print "[green]Bucket region: us-east-1[/green]"],
   Ok (Some "us-east-1")).
Proof.
  apply (C9_location_default_region forbidden_service _ _ None);
    [reflexivity | left; reflexivity].
Defined.

(** * Further facts about splitting, parsing and the probes *)

Section MoreSplitFacts.

(** No piece of a split holds the separator. *)
Lemma split_pieces_absent sep s :
  sep <> "" -> Forall (fun p => contains sep p = false) (split sep s).
Proof.
  intros Hsep.
  remember (S (String.length s)) as n eqn:Hn.
  assert (Hlt : String.length s < n) by lia. clear Hn.
  revert s Hlt. induction n as [|n IH]; intros s Hlt; [lia|].
  destruct (contains sep s) eqn:Hc.
  - destruct (first_occurrence sep _ Hc) as [a [b [E Hne]]].
    unfold split. rewrite E, splitn_first by auto. simpl one_less.
    constructor.
    + exact (no_early_absent _ _ _ Hsep Hne).
    + apply IH. rewrite E, !length_append in Hlt.
      destruct sep; [contradiction|]. simpl in Hlt. lia.
  - unfold split. rewrite splitn_absent by assumption. constructor; auto.
Qed.

Lemma getitem_last_In {A} (l : list A) x : getitem_last l = Ok x -> In x l.
Proof.
  induction l as [|a l IH]; [discriminate|].
  destruct l as [|b l].
  - intros H. injection H as ->. now left.
  - intros H. right. apply IH. exact H.
Qed.

Lemma getitem_In {A} (l : list A) i x : getitem l i = Ok x -> In x l.
Proof.
  unfold getitem. destruct (nth_error l i) eqn:E; [|discriminate].
  intros H. injection H as ->. eapply nth_error_In, E.
Qed.

Lemma split_last_absent sep s x :
  sep <> "" -> getitem_last (split sep s) = Ok x -> contains sep x = false.
Proof.
  intros Hsep H. apply getitem_last_In in H.
  pose proof (split_pieces_absent sep s Hsep) as F.
  rewrite Forall_forall in F. exact (F _ H).
Qed.

(** The last piece of a split is a suffix of the string. *)
Lemma split_last_is_suffix sep s x :
  sep <> "" -> getitem_last (split sep s) = Ok x -> exists pre, s = pre ++ x.
Proof.
  intros Hsep H.
  destruct (split_last_suffix sep s Hsep) as (pre & piece & Hl & E & _).
  rewrite Hl in H. injection H as <-. eauto.
Qed.

(** A string that holds [/] ends in [/] and a last segment without [/]. *)
Lemma last_segment key :
  contains "/" key = true ->
  exists dir name, key = dir ++ "/" ++ name /\ contains "/" name = false.
Proof.
  intros Hc.
  destruct (split_last_suffix "/" key) as (pre & piece & Hl & E & Hp); [discriminate|].
  pose proof (split_last_absent "/" key piece) as Ha.
  specialize (Ha ltac:(discriminate) Hl).
  destruct Hp as [-> | [p ->]].
  - simpl in E. subst piece. congruence.
  - exists p, piece. split; [|exact Ha]. now rewrite E, append_assoc.
Qed.

Lemma listing_prefix_dir dir name :
  contains "/" name = false -> listing_prefix (dir ++ "/" ++ name) = dir.
Proof.
  intros H. unfold listing_prefix.
  rewrite split_char_append. unfold split at 2.
  rewrite splitn_absent by assumption.
  rewrite drop_last_app. unfold split.
  apply join_splitn. discriminate.
Qed.

Lemma listing_prefix_flat key :
  contains "/" key = false -> listing_prefix key = "".
Proof.
  intros H. unfold listing_prefix, split.
  rewrite splitn_absent by assumption. reflexivity.
Qed.

End MoreSplitFacts.

Section MoreResolverFacts.

Lemma split_authority_raises lib u x :
  split_authority lib u = Raise x -> x = ValueError.
Proof.
  unfold split_authority. destruct (take 2 u =? "//")%string; [|discriminate].
  destruct (_splitnetloc u 2) as [nl rest].
  repeat match goal with
         | |- context [if ?c then _ else _] => destruct c
         end; intros H; now inversion H.
Qed.

Lemma urlsplit_raises lib url x : urlsplit lib url = Raise x -> x = ValueError.
Proof.
  unfold urlsplit.
  destruct (split_scheme_off _) as [sch u0].
  destruct (split_authority lib u0) as [[nl u1]|y] eqn:Ha; cbn [res_bind].
  - destruct (cut_first "#" u1) as (p1 & t1 & E1 & _); [discriminate|].
    rewrite E1. cbn [res_bind].
    destruct (cut_first "?" p1) as (p2 & t2 & E2 & _); [discriminate|].
    rewrite E2. cbn [res_bind].
    unfold _checknetloc.
    repeat match goal with
           | |- context [if ?c then _ else _] => destruct c
           end; cbn [res_bind]; intros H; now inversion H.
  - intros H. injection H as <-. exact (split_authority_raises _ _ _ Ha).
Qed.

Lemma urlparse_raises lib url x : urlparse lib url = Raise x -> x = ValueError.
Proof.
  unfold urlparse. destruct (urlsplit lib url) as [r|y] eqn:E; cbn [res_bind].
  - destruct (str_in (split_scheme r) uses_params && contains ";" (split_path r));
      [destruct (_splitparams (split_path r))|]; discriminate.
  - intros H. injection H as <-. exact (urlsplit_raises _ _ _ E).
Qed.

(** The indexing of the path-style branch never fails. *)
Lemma path_parts_ok p :
  exists b k,
    (bucket <- getitem (splitn "/" (Some 1) p) 0 ;;
     key <- (if 1 <? List.length (splitn "/" (Some 1) p)
             then getitem (splitn "/" (Some 1) p) 1 else Ok "") ;;
     Ok (bucket, key))%res = Ok (b, k) /\
    contains "/" b = false /\
    (p = b /\ k = "" \/ p = b ++ "/" ++ k).
Proof.
  destruct (contains "/" p) eqn:Hc.
  - destruct (first_occurrence _ _ Hc) as [a [t [E Hne]]].
    apply no_early_absent in Hne; [|discriminate].
    exists a, t. subst p. rewrite !split_at_first_slash by assumption.
    split; [reflexivity|]. split; [assumption|]. now right.
  - exists p, "". rewrite splitn_absent by assumption.
    split; [reflexivity|]. split; [assumption|]. now left.
Qed.

Lemma extract_raises lib url x :
  extract_bucket_and_key lib url = Raise x ->
  x = ValueError /\ contains ".s3." url = false /\
  urlparse lib url = Raise ValueError.
Proof.
  intros H. destruct (contains ".s3." url) eqn:Hs.
  - destruct (extract_virtual lib url Hs) as (b & pre & k & E & _). congruence.
  - unfold extract_bucket_and_key in H. rewrite Hs in H.
    destruct (urlparse lib url) as [r|y] eqn:Hr; cbn [res_bind] in H.
    + destruct (path_parts_ok (lstrip "/" (path r))) as (b & k & E & _).
      rewrite E in H. discriminate.
    + injection H as <-. pose proof (urlparse_raises _ _ _ Hr). subst y. auto.
Qed.

Lemma extract_path_recompose lib url r b k :
  contains ".s3." url = false ->
  urlparse lib url = Ok r ->
  extract_bucket_and_key lib url = Ok (b, k) ->
  contains "/" b = false /\
  (lstrip "/" (path r) = b /\ k = "" \/ lstrip "/" (path r) = b ++ "/" ++ k).
Proof.
  intros Hs Hr. unfold extract_bucket_and_key. rewrite Hs, Hr. cbn [res_bind].
  destruct (path_parts_ok (lstrip "/" (path r))) as (b' & k' & E & Hb & Hp).
  rewrite E. intros H. injection H as <- <-. auto.
Qed.

Lemma extract_virtual_parts lib url b k :
  contains ".s3." url = true ->
  extract_bucket_and_key lib url = Ok (b, k) ->
  contains "/" b = false /\ contains ".s3." b = false /\
  contains ".amazonaws.com/" k = false.
Proof.
  intros Hs. unfold extract_bucket_and_key. rewrite Hs.
  destruct (getitem (split ".s3." url) 0) as [p|] eqn:Hp; cbn [res_bind]; [|discriminate].
  destruct (getitem_last (split "/" p)) as [b'|] eqn:Hb; cbn [res_bind]; [|discriminate].
  destruct (getitem_last (split ".amazonaws.com/" url)) as [t|] eqn:Ht;
    cbn [res_bind]; [|discriminate].
  unfold split at 1. rewrite join_splitn by discriminate.
  intros H. injection H as <- <-.
  split; [|split].
  - apply (split_last_absent "/" p); [discriminate | exact Hb].
  - apply getitem_In in Hp.
    pose proof (split_pieces_absent ".s3." url ltac:(discriminate)) as F.
    rewrite Forall_forall in F. specialize (F _ Hp).
    destruct (split_last_is_suffix "/" p b') as [pre E]; [discriminate | exact Hb |].
    rewrite E in F. now apply contains_append_false in F.
  - apply (split_last_absent ".amazonaws.com/" url); [discriminate | exact Ht].
Qed.

(** The virtual-hosted branch on a URL cut in two ways: at its first [.s3.],
    with the bucket [b] right before it, and at a [.amazonaws.com/] after
    which the marker does not occur again. *)
Lemma extract_virtual_general lib url u1 b rest pre k :
  url = u1 ++ b ++ ".s3." ++ rest ->
  url = pre ++ ".amazonaws.com/" ++ k ->
  u1 = "" \/ (exists p, u1 = p ++ "/") ->
  contains "/" b = false ->
  contains ".s3." (u1 ++ b ++ ".s3") = false ->
  contains ".amazonaws.com/" k = false ->
  extract_bucket_and_key lib url = Ok (b, k).
Proof.
  intros E1 E2 Hu HB Hs3 HK.
  assert (E1' : url = (u1 ++ b) ++ ".s3." ++ rest) by (now rewrite append_assoc).
  assert (Hc : contains ".s3." url = true) by (rewrite E1'; apply contains_mid).
  assert (Hp : getitem (split ".s3." url) 0 = Ok (u1 ++ b)).
  { rewrite E1'. unfold split.
    rewrite splitn_first; [reflexivity | discriminate | reflexivity |].
    apply no_early_of_absent; [discriminate|].
    rewrite append_assoc. exact Hs3. }
  assert (Hb : getitem_last (split "/" (u1 ++ b)) = Ok b).
  { destruct Hu as [-> | [p ->]].
    - simpl. unfold split. now rewrite splitn_absent.
    - rewrite append_assoc, split_char_append. unfold split at 2.
      rewrite (splitn_absent "/" None b HB). apply getitem_last_app. }
  assert (Hk : getitem_last (split ".amazonaws.com/" url) = Ok k).
  { rewrite E2. apply split_last_piece; auto. discriminate. }
  unfold extract_bucket_and_key. rewrite Hc, Hp. cbn [res_bind].
  rewrite Hb. cbn [res_bind]. rewrite Hk. cbn [res_bind].
  unfold split. rewrite join_splitn by discriminate. reflexivity.
Qed.

End MoreResolverFacts.

Section AnyHost.

Lemma remove_unsafe_id s :
  contains (chr 9) s = false -> contains (chr 13) s = false ->
  contains (chr 10) s = false -> remove_unsafe s = s.
Proof.
  unfold chr. intros H9 H13 H10. rewrite remove_unsafe_strip.
  rewrite (strip_char_absent _ _ H9), (strip_char_absent _ _ H13).
  exact (strip_char_absent _ _ H10).
Qed.

Lemma find_at_char_skip c a b pos :
  contains (String c "") a = false ->
  find_at (String c "") (a ++ b) pos = find_at (String c "") b (pos + String.length a).
Proof.
  revert pos. induction a as [|x a IH]; intros pos H.
  - simpl. now rewrite Nat.add_0_r.
  - rewrite contains_char_cons in H. apply orb_false_iff in H. destruct H as [H1 H2].
    cbn [append find_at startswith]. rewrite H1. cbn [andb].
    rewrite IH by assumption. simpl String.length. f_equal. lia.
Qed.

Lemma find_at_char_hit c b pos : find_at (String c "") (String c b) pos = Some pos.
Proof. cbn [find_at startswith]. now rewrite Ascii.eqb_refl. Qed.

Lemma drop_add n a b : drop (String.length a + n) (a ++ b) = drop n b.
Proof. induction a as [|x a IH]; [reflexivity | exact IH]. Qed.

Lemma scheme_facts sch :
  In sch path_style_schemes ->
  (forall X, lstrip _WHATWG_C0_CONTROL_OR_SPACE (sch ++ X) = sch ++ X) /\
  remove_unsafe sch = sch /\
  (forall Z, split_scheme_off (sch ++ "://" ++ Z) = (sch, "//" ++ Z)) /\
  contains ".s3." (sch ++ ":/") = false.
Proof.
  intros [<-|[<-|[<-|[]]]]; repeat split; reflexivity.
Qed.

(** The authority of [//H/...] is [H] when [H] holds no delimiter. *)
Lemma _splitnetloc_host H r :
  free_of host_reserved H = true ->
  _splitnetloc ("//" ++ H ++ "/" ++ r) 2 = (H, "/" ++ r).
Proof.
  intros HH.
  assert (Hc : forall c, char_in c host_reserved = true ->
                         contains (String c "") H = false)
    by (intros c; apply free_of_contains; exact HH).
  unfold _splitnetloc. cbn [fold_left].
  replace (find "/" ("//" ++ H ++ "/" ++ r) 2) with (find_at "/" (H ++ "/" ++ r) 2)
    by reflexivity.
  replace (find "?" ("//" ++ H ++ "/" ++ r) 2) with (find_at "?" (H ++ "/" ++ r) 2)
    by reflexivity.
  replace (find "#" ("//" ++ H ++ "/" ++ r) 2) with (find_at "#" (H ++ "/" ++ r) 2)
    by reflexivity.
  rewrite (find_at_char_skip "/"%char), (find_at_char_skip "?"%char),
    (find_at_char_skip "#"%char) by (apply Hc; reflexivity).
  change ("/" ++ r) with (String "/" r).
  rewrite find_at_char_hit.
  set (n := String.length H).
  destruct (find_at "#" (String "/" r) (2 + n)) as [j|] eqn:E1;
    destruct (find_at "?" (String "/" r) (2 + n)) as [i|] eqn:E2;
    try apply find_at_ge in E1; try apply find_at_ge in E2;
    match goal with
    | |- (take (?X - 2) _, drop ?X _) = _ =>
      replace X with (n + 2)
        by (rewrite !length_append; fold n; simpl String.length; lia)
    end.
  all: replace (n + 2 - 2) with n by lia;
    change (drop 2 ("//" ++ H ++ String "/" r)) with (H ++ String "/" r);
    unfold n; rewrite take_append;
    replace (drop (String.length H + 2) ("//" ++ H ++ String "/" r))
      with (drop (2 + String.length H) ("//" ++ H ++ String "/" r))
      by (f_equal; lia);
    change (drop (2 + String.length H) ("//" ++ H ++ String "/" r))
      with (drop (String.length H) (H ++ String "/" r));
    now rewrite drop_append.
Qed.

Lemma urlparse_any_host lib sch H q t :
  In sch path_style_schemes ->
  free_of host_reserved H = true ->
  all_chars isascii H = true ->
  free_of url_reserved q = true ->
  opens_query_or_fragment t = true ->
  exists qu fr,
    urlparse lib (sch ++ "://" ++ H ++ "/" ++ q ++ t) =
    Ok (mkParseResult sch H ("/" ++ q) "" qu fr).
Proof.
  intros Hsch HH Hascii Hq Ht.
  destruct (scheme_facts sch Hsch) as (S1 & S2 & S3 & _).
  assert (HcH : forall c, char_in c host_reserved = true ->
                          contains (String c "") H = false)
    by (intros c; apply free_of_contains; exact HH).
  assert (Hc : forall c, char_in c url_reserved = true ->
                         contains (String c "") ("/" ++ q) = false).
  { intros c Hc. rewrite contains_char_append, (free_of_contains _ _ _ Hq Hc).
    destruct c as [[] [] [] [] [] [] [] []]; try discriminate Hc; reflexivity. }
  unfold urlparse, urlsplit. rewrite S1.
  change (fold_left (fun u b => replace b "" u) _UNSAFE_URL_BYTES_TO_REMOVE
                    (sch ++ "://" ++ H ++ "/" ++ q ++ t))
    with (remove_unsafe (sch ++ "://" ++ H ++ "/" ++ q ++ t)).
  rewrite !remove_unsafe_append, S2, (remove_unsafe_plain q Hq).
  rewrite (remove_unsafe_id H) by (apply HcH; reflexivity).
  replace (remove_unsafe "://") with "://" by reflexivity.
  replace (remove_unsafe "/") with "/" by reflexivity.
  apply remove_unsafe_opens in Ht. revert Ht. generalize (remove_unsafe t).
  clear t. intros t Ht.
  rewrite S3. unfold split_authority.
  replace (take 2 ("//" ++ H ++ "/" ++ q ++ t) =? "//")%string with true by reflexivity.
  rewrite (_splitnetloc_host H (q ++ t) HH).
  rewrite (HcH "["%char), (HcH "]"%char) by reflexivity.
  cbn [andb orb negb res_bind].
  destruct (cut_query_fragment ("/" ++ q) t) as (p1 & fr & qu & E1 & E2);
    [apply Hc; reflexivity | apply Hc; reflexivity | exact Ht |].
  rewrite append_assoc in E1. rewrite E1. cbn [res_bind]. rewrite E2.
  cbn [res_bind]. unfold _checknetloc. rewrite Hascii, orb_true_r.
  cbn [res_bind split_scheme split_path split_netloc split_query split_fragment].
  replace (contains ";" ("/" ++ q)) with false
    by (symmetry; apply Hc; reflexivity).
  rewrite andb_false_r. exists qu, fr. reflexivity.
Qed.

End AnyHost.

Section BarePath.

Lemma all_chars_take_hit p a c r i :
  String.length a < i -> p c = false ->
  all_chars p (take i (a ++ String c r)) = false.
Proof.
  revert i. induction a as [|x a IH]; intros i Hi Hp.
  - destruct i as [|i]; [simpl in Hi; lia|]. cbn [append take all_chars].
    now rewrite Hp.
  - destruct i as [|i]; [simpl in Hi; lia|]. cbn [append take all_chars].
    rewrite IH; [apply andb_false_r | simpl in Hi; lia | exact Hp].
Qed.

(** A string that begins with a segment without [:] has no scheme. *)
Lemma split_scheme_off_none B r :
  contains ":" B = false ->
  split_scheme_off (B ++ "/" ++ r) = ("", B ++ "/" ++ r).
Proof.
  intros HB. unfold split_scheme_off, find.
  replace (String.length (B ++ "/" ++ r) <? 0) with false by reflexivity.
  rewrite drop_0, find_at_char_skip by assumption.
  change ("/" ++ r) with (String "/" r).
  cbn [find_at startswith]. replace (Ascii.eqb ":" "/") with false by reflexivity.
  cbn [andb].
  destruct (find_at ":" r (S (0 + String.length B))) as [i|] eqn:E.
  - apply find_at_ge in E. destruct i as [|i']; [lia|].
    destruct (B ++ String "/" r) as [|c0 s] eqn:Eu; [reflexivity|].
    rewrite <- Eu.
    rewrite (all_chars_take_hit _ B "/" r (S i')); [|lia | reflexivity].
    now rewrite andb_false_r.
  - destruct (B ++ String "/" r); reflexivity.
Qed.

Lemma urlparse_bare lib B q t :
  B <> "" ->
  contains "/" B = false ->
  contains ":" B = false ->
  free_of _WHATWG_C0_CONTROL_OR_SPACE B = true ->
  free_of url_reserved B = true ->
  free_of url_reserved q = true ->
  opens_query_or_fragment t = true ->
  exists qu fr,
    urlparse lib (B ++ "/" ++ q ++ t) =
    Ok (mkParseResult "" "" (B ++ "/" ++ q) "" qu fr).
Proof.
  intros HB Hslash Hcolon Hsp HfB Hq Ht.
  assert (Hp : free_of url_reserved (B ++ "/" ++ q) = true).
  { rewrite !free_of_append, HfB, Hq. reflexivity. }
  assert (Hc : forall c, char_in c url_reserved = true ->
                         contains (String c "") (B ++ "/" ++ q) = false)
    by (intros c; apply free_of_contains; exact Hp).
  destruct B as [|c0 B']; [contradiction|].
  assert (H0 : char_in c0 _WHATWG_C0_CONTROL_OR_SPACE = false).
  { unfold free_of in Hsp. cbn [all_chars] in Hsp.
    apply andb_true_iff in Hsp. now apply negb_true_iff, Hsp. }
  assert (H1 : Ascii.eqb c0 "/" = false).
  { rewrite contains_char_cons in Hslash. apply orb_false_iff in Hslash.
    rewrite Ascii.eqb_sym. exact (proj1 Hslash). }
  unfold urlparse, urlsplit.
  replace (lstrip _WHATWG_C0_CONTROL_OR_SPACE (String c0 B' ++ "/" ++ q ++ t))
    with (String c0 B' ++ "/" ++ q ++ t)
    by (cbn [append lstrip]; now rewrite H0).
  change (fold_left (fun u b => replace b "" u) _UNSAFE_URL_BYTES_TO_REMOVE
                    (String c0 B' ++ "/" ++ q ++ t))
    with (remove_unsafe (String c0 B' ++ "/" ++ q ++ t)).
  replace (String c0 B' ++ "/" ++ q ++ t) with ((String c0 B' ++ "/" ++ q) ++ t)
    by (now rewrite !append_assoc).
  rewrite remove_unsafe_append, (remove_unsafe_plain _ Hp).
  apply remove_unsafe_opens in Ht. revert Ht. generalize (remove_unsafe t).
  clear t. intros t Ht.
  rewrite !append_assoc, split_scheme_off_none by assumption.
  unfold split_authority.
  replace (take 2 (String c0 B' ++ "/" ++ q ++ t) =? "//")%string with false
    by (cbn [append take String.eqb]; now rewrite H1).
  cbn [res_bind].
  destruct (cut_query_fragment (String c0 B' ++ "/" ++ q) t) as (p1 & fr & qu & E1 & E2);
    [apply Hc; reflexivity | apply Hc; reflexivity | exact Ht |].
  rewrite !append_assoc in E1. rewrite E1. cbn [res_bind]. rewrite E2.
  cbn [res_bind _checknetloc String.eqb orb
       split_scheme split_path split_netloc split_query split_fragment].
  rewrite (Hc ";"%char) by reflexivity.
  rewrite andb_false_r. exists qu, fr. reflexivity.
Qed.

End BarePath.

Section MoreRunFacts.

Ltac run_steps :=
  rewrite ?calls_bind, ?outcome_bind, ?trace_bind;
  cbn [print ret outcome trace fst snd calls app negb].

Lemma for_each_metadata md :
  for_each md
    (fun '(k, v) =>
       if negb (k =? "ResponseMetadata")%string then print (k ++ ": " ++ v)
       else ret tt) = (metadata_lines md, Ok tt).
Proof.
  induction md as [|[k v] md IH]; [reflexivity|].
  cbn [for_each]. rewrite IH. unfold metadata_lines. cbn [filter fst snd].
  destruct (negb (k =? "ResponseMetadata")%string); reflexivity.
Qed.

(** *** No [ClientError] leaves a probe *)

Lemma nce_bind {A B} (m : Run A) (k : A -> Run B) :
  (forall e, outcome m <> Raise (ClientErrorExn e)) ->
  (forall a e, outcome (k a) <> Raise (ClientErrorExn e)) ->
  forall e, outcome (bind m k) <> Raise (ClientErrorExn e).
Proof.
  intros Hm Hk e. rewrite outcome_bind.
  destruct (outcome m) as [a|x] eqn:E; [apply Hk|].
  intros H. apply (Hm e). congruence.
Qed.

Lemma nce_try_except {A} (body : Run A) (h : ClientError -> Run A) :
  (forall e0 e, outcome (h e0) <> Raise (ClientErrorExn e)) ->
  forall e, outcome (try_except body h) <> Raise (ClientErrorExn e).
Proof.
  intros Hh e. rewrite outcome_try_except.
  destruct (outcome body) as [a|[| | |e0|n]]; try discriminate. apply Hh.
Qed.

Lemma nce_check_bucket_exists s3 c b e :
  outcome (check_bucket_exists s3 c b) <> Raise (ClientErrorExn e).
Proof.
  apply nce_try_except. intros e0 e1. run_steps.
  repeat match goal with
         | |- context [if ?x then _ else _] => destruct x
         end; discriminate.
Qed.

Lemma nce_check_bucket_location s3 c b e :
  outcome (check_bucket_location s3 c b) <> Raise (ClientErrorExn e).
Proof. apply nce_try_except. intros e0 e1. discriminate. Qed.

Lemma nce_check_object_metadata s3 c b k e :
  outcome (check_object_metadata s3 c b k) <> Raise (ClientErrorExn e).
Proof. apply nce_try_except. intros e0 e1. discriminate. Qed.

Lemma nce_list_similar_objects s3 c b k e :
  outcome (list_similar_objects s3 c b k) <> Raise (ClientErrorExn e).
Proof. apply nce_try_except. intros e0 e1. discriminate. Qed.

Lemma nce_check_bucket_policy s3 c b e :
  outcome (check_bucket_policy s3 c b) <> Raise (ClientErrorExn e).
Proof.
  apply nce_try_except. intros e0 e1.
  destruct (err_code e0) as [code|]; [|discriminate].
  destruct (code =? "NoSuchBucketPolicy")%string; discriminate.
Qed.

Lemma nce_check_bucket_acl s3 c b e :
  outcome (check_bucket_acl s3 c b) <> Raise (ClientErrorExn e).
Proof. apply nce_try_except. intros e0 e1. discriminate. Qed.

(** *** Probes that are answered end normally *)

Lemma answered_probe {A B} c op (answer : res A) (k : A -> Run B)
      (h : ClientError -> Run B) :
  answered answer ->
  (forall a, exists v, outcome (k a) = Ok v) ->
  (forall e, exists v, outcome (h e) = Ok v) ->
  exists v, outcome (try_except (bind (remote c op answer) k) h) = Ok v.
Proof.
  intros Ha Hk Hh. rewrite outcome_try_except, outcome_bind.
  destruct answer as [a|[| | |e|n]]; cbn [remote outcome snd]; try contradiction.
  - destruct (Hk a) as [v Hv]. rewrite Hv. eauto.
  - apply Hh.
Qed.

Lemma answered_check_bucket_location s3 c b :
  answered (get_bucket_location s3 c b) ->
  exists v, outcome (check_bucket_location s3 c b) = Ok v.
Proof.
  intros H. apply answered_probe; [exact H | |];
    intros ?; eexists; reflexivity.
Qed.

Lemma answered_check_object_metadata s3 c b k :
  answered (head_object s3 c b k) ->
  exists v, outcome (check_object_metadata s3 c b k) = Ok v.
Proof.
  intros H. apply answered_probe; [exact H | |].
  - intros md. run_steps. rewrite for_each_metadata. eexists; reflexivity.
  - intros e. eexists; reflexivity.
Qed.

Lemma answered_list_similar_objects s3 c b k :
  answered (list_objects_v2 s3 c b (listing_prefix k) 10) ->
  exists v, outcome (list_similar_objects s3 c b k) = Ok v.
Proof.
  intros H. apply answered_probe; [exact H | |].
  - intros [contents|]; eexists; reflexivity.
  - intros e. eexists; reflexivity.
Qed.

Lemma answered_check_bucket_policy s3 c b :
  answered_with_code (get_bucket_policy s3 c b) ->
  exists v, outcome (check_bucket_policy s3 c b) = Ok v.
Proof.
  unfold check_bucket_policy. rewrite outcome_try_except, outcome_bind.
  destruct (get_bucket_policy s3 c b) as [a|[| | |e|n]];
    cbn [answered_with_code remote outcome snd]; intros H;
    try contradiction; [eexists; reflexivity|].
  destruct (err_code e) as [code|]; [|contradiction].
  destruct (code =? "NoSuchBucketPolicy")%string; eexists; reflexivity.
Qed.

Lemma answered_check_bucket_acl s3 c b :
  answered (get_bucket_acl s3 c b) ->
  exists v, outcome (check_bucket_acl s3 c b) = Ok v.
Proof.
  intros H. apply answered_probe; [exact H | | intros e; eexists; reflexivity].
  intros acl. run_steps.
  destruct (for_each_prints acl
    (fun grant =>
       (print ("- Grantee: " ++
               match grantee_DisplayName grant with Some n => n | None => "Unknown" end) ;;;
        print ("  Permission: " ++ grant_Permission grant))%run)) as [_ H2].
  { intros g. split; reflexivity. }
  rewrite H2. eauto.
Qed.

Lemma map_snd_probes c b k n :
  map snd ((c, HeadBucket b) :: (c, GetBucketLocation b) :: [])%list = firstn 2 (expected_ops b k) /\
  forall c0 c1,
    map snd ((c0, HeadBucket b) :: (c1, GetBucketLocation b) ::
             firstn n (probes_after_location c b k)) =
    firstn (S (S n)) (expected_ops b k).
Proof.
  split; [reflexivity|]. intros c0 c1. cbn [map snd firstn expected_ops].
  do 2 f_equal. rewrite <- firstn_map. reflexivity.
Qed.

Lemma In_firstn {A} (x : A) n l : In x (firstn n l) -> In x l.
Proof.
  revert l. induction n as [|n IH]; intros [|a l] H; try contradiction.
  destruct H as [H|H]; [now left | right; now apply IH].
Qed.

(** The tail of the run, once the policy probe is reached. *)
Lemma probe_tail_policy_reached s3 c1 bk k c b :
  In (c, GetBucketPolicy b) (calls (trace (probe_tail s3 c1 bk k))) ->
  c = c1 /\ b = bk /\
  calls (trace (probe_tail s3 c1 bk k)) =
    ([(c1, HeadObject bk k); (c1, ListObjectsV2 bk (listing_prefix k) 10);
      (c1, GetBucketPolicy bk)] ++
     match outcome (check_bucket_policy s3 c1 bk) with
     | Ok _ => [(c1, GetBucketAcl bk)]
     | Raise _ => []
     end)%list /\
  outcome (probe_tail s3 c1 bk k) =
    match outcome (check_bucket_policy s3 c1 bk) with
    | Ok _ => outcome (check_bucket_acl s3 c1 bk)
    | Raise x => Raise x
    end.
Proof.
  unfold probe_tail. rewrite !calls_bind, !outcome_bind.
  rewrite check_object_metadata_calls, list_similar_objects_calls,
    check_bucket_policy_calls, check_bucket_acl_calls.
  destruct (outcome (check_object_metadata s3 c1 bk k)).
  - destruct (outcome (list_similar_objects s3 c1 bk k)).
    + intros H. assert (E : (c, GetBucketPolicy b) = (c1, GetBucketPolicy bk)).
      { cbn [app] in H.
        destruct (outcome (check_bucket_policy s3 c1 bk)); cbn [app] in H;
          repeat (destruct H as [H|H]; try discriminate H; try contradiction);
          now symmetry. }
      injection E as -> ->. repeat split; reflexivity.
    + cbn [app]. intros H.
      repeat (destruct H as [H|H]; try discriminate H; try contradiction).
  - cbn [app]. intros H.
    repeat (destruct H as [H|H]; try discriminate H; try contradiction).
Qed.

Lemma check_bucket_policy_codeless s3 c b e :
  get_bucket_policy s3 c b = Raise (ClientErrorExn e) ->
  err_code e = None ->
  check_bucket_policy s3 c b = ([Call c (GetBucketPolicy b)], Raise KeyError).
Proof.
  intros H Hc. unfold check_bucket_policy. rewrite H.
  cbn [remote bind try_except]. rewrite Hc. reflexivity.
Qed.

(** The whole trace of a run that reaches the later probes. *)
Lemma debug_s3_access_trace lib s3 url profile region b k actual :
  extract_bucket_and_key lib url = Ok (b, k) ->
  head_bucket s3 (client (mkSession profile) "s3" region) b = Ok tt ->
  outcome (check_bucket_location s3 (client (mkSession profile) "s3" region) b) = Ok actual ->
  trace (debug_s3_access lib s3 url profile region) =
  ([Print ("[bold]Analyzing URL: " ++ url ++ "[/bold]");
    Print ("Bucket: " ++ b); Print ("Key: " ++ k ++ nl)] ++
   trace (check_bucket_exists s3 (client (mkSession profile) "s3" region) b) ++
   trace (check_bucket_location s3 (client (mkSession profile) "s3" region) b) ++
   (if truthy actual && truthy region && negb (opt_eqb actual region)
    then [Print ("[yellow]Warning: Specified region " ++ fmt region ++
                 " differs from bucket region " ++ fmt actual ++ "[/yellow]")]
    else []) ++
   trace (probe_tail s3 (next_client profile region actual) b k))%list.
Proof.
  intros He Hh Hl.
  set (c0 := client (mkSession profile) "s3" region) in *.
  destruct (check_bucket_exists_run s3 c0 b) as (_ & E2 & _).
  apply E2 in Hh.
  unfold debug_s3_access. rewrite He, bind_lift_ok. fold c0. cbv iota beta.
  unfold next_client. fold c0.
  do 5 (run_steps; rewrite ?Hh, ?Hl; cbn [outcome trace fst snd app negb]).
  do 3 f_equal. do 2 apply (f_equal (app _)).
  destruct (truthy actual && truthy region && negb (opt_eqb actual region));
    reflexivity.
Qed.

End MoreRunFacts.

(** * Facts about the failing runtime *)

Section CutFacts.

Variable rt : Runtime.

Lemma accepted_app t u :
  accepted rt (t ++ u)%list =
  match accepted rt t with
  | (t1, Some name) => (t1, Some name)
  | (t1, None) => let (u1, r) := accepted rt u in ((t1 ++ u1)%list, r)
  end.
Proof.
  induction t as [|ev t IH]; cbn [app accepted].
  - destruct (accepted rt u); reflexivity.
  - destruct (raises rt ev); [reflexivity|].
    rewrite IH. destruct (accepted rt t) as [t1 [name|]]; [reflexivity|].
    destruct (accepted rt u); reflexivity.
Qed.

Lemma accepted_all t t1 : accepted rt t = (t1, None) -> t1 = t.
Proof.
  revert t1. induction t as [|ev t IH]; cbn [accepted]; intros t1 H.
  - congruence.
  - destruct (raises rt ev); [discriminate|].
    destruct (accepted rt t) as [t' r]. injection H as <- ->.
    now rewrite (IH t' eq_refl).
Qed.

Lemma accepted_renders t :
  forallb (renders rt) t = true -> accepted rt t = (t, None).
Proof.
  induction t as [|ev t IH]; cbn [forallb accepted]; [reflexivity|].
  unfold renders at 1. destruct (raises rt ev); [discriminate|].
  intros H. now rewrite (IH H).
Qed.

(** What [accepted] returns: a prefix of the trace, all of it rendered, and
    the event at which the console stops. *)
Lemma accepted_stops t t1 name :
  accepted rt t = (t1, Some name) ->
  forallb (renders rt) t1 = true /\
  exists ev t2, t = (t1 ++ ev :: t2)%list /\ raises rt ev = Some name.
Proof.
  revert t1. induction t as [|ev t IH]; cbn [accepted]; intros t1 H; [discriminate|].
  destruct (raises rt ev) as [n|] eqn:E.
  - injection H as <- <-. split; [reflexivity|]. now exists ev, t.
  - destruct (accepted rt t) as [t' r]. injection H as <- ->.
    destruct (IH t' eq_refl) as (H1 & ev' & t2 & -> & H2).
    split; [cbn [forallb]; unfold renders at 1; now rewrite E|].
    now exists ev', t2.
Qed.

Lemma cut_renders {A} (m : Run A) :
  forallb (renders rt) (trace m) = true -> cut rt m = m.
Proof. intros H. unfold cut. now rewrite (accepted_renders _ H). Qed.

Lemma cut_ret {A} (a : A) : cut rt (ret a) = ret a.
Proof. reflexivity. Qed.

Lemma cut_lift {A} (r : res A) : cut rt (lift r) = lift r.
Proof. reflexivity. Qed.

Lemma cut_remote {A} c op (answer : res A) :
  cut rt (remote c op answer) = remote c op answer.
Proof. reflexivity. Qed.

Lemma cut_print text : cut rt (print text) = Live.print rt text.
Proof.
  unfold cut, Live.print, print. cbn [trace fst accepted raises].
  destruct (print_raises rt text); reflexivity.
Qed.

Lemma cut_print_table columns rows :
  cut rt (print_table columns rows) = Live.print_table rt columns rows.
Proof.
  unfold cut, Live.print_table, print_table. cbn [trace fst accepted raises].
  destruct (table_raises rt columns rows); reflexivity.
Qed.

Lemma cut_bind {A B} (m : Run A) (k : A -> Run B) m' k' :
  cut rt m = m' -> (forall a, cut rt (k a) = k' a) ->
  cut rt (bind m k) = bind m' k'.
Proof.
  intros <- Hk. destruct m as [t [a|x]].
  - specialize (Hk a). unfold cut in *. cbn [bind trace fst] in *.
    destruct (k a) as [t' r']. cbn [trace fst] in *. rewrite accepted_app.
    destruct (accepted rt t) as [t1 [name|]] eqn:Et; [reflexivity|].
    apply accepted_all in Et. subst t1. cbn [bind]. rewrite <- Hk.
    destruct (accepted rt t') as [u1 [name|]]; reflexivity.
  - unfold cut. cbn [bind trace fst].
    destruct (accepted rt t) as [t1 [name|]]; reflexivity.
Qed.

Lemma cut_try_except {A} (m : Run A) (h : ClientError -> Run A) m' h' :
  cut rt m = m' -> (forall e, cut rt (h e) = h' e) ->
  cut rt (try_except m h) = try_except m' h'.
Proof.
  intros <- Hh. destruct m as [t [a|[| | |e|n]]];
    try (unfold cut; cbn [try_except trace fst];
         destruct (accepted rt t) as [t1 [name|]]; reflexivity).
  specialize (Hh e). unfold cut in *. cbn [try_except trace fst] in *.
  destruct (h e) as [t' r']. cbn [trace fst] in *. rewrite accepted_app.
  destruct (accepted rt t) as [t1 [name|]] eqn:Et; [reflexivity|].
  apply accepted_all in Et. subst t1. cbn [try_except]. rewrite <- Hh.
  destruct (accepted rt t') as [u1 [name|]]; reflexivity.
Qed.

Lemma cut_for_each {A} (l : list A) (body body' : A -> Run unit) :
  (forall a, cut rt (body a) = body' a) ->
  cut rt (for_each l body) = for_each l body'.
Proof.
  intros H. induction l as [|a l IH]; [reflexivity|].
  cbn [for_each]. apply cut_bind; [apply H | intros _; exact IH].
Qed.

Ltac cut_steps :=
  repeat first
    [ apply cut_try_except
    | apply cut_bind
    | apply cut_for_each
    | apply cut_print
    | apply cut_print_table
    | apply cut_remote
    | apply cut_ret
    | apply cut_lift
    | intros ?
    | match goal with
      | |- cut _ (if ?b then _ else _) = _ => destruct b
      | |- cut _ (match ?x with _ => _ end) = _ => destruct x
      end ].

(** Each probe on the failing runtime is the probe of the base model, stopped
    at the first text that the console rejects. *)
Lemma live_check_bucket_exists s3 c b :
  Live.check_bucket_exists rt s3 c b = cut rt (check_bucket_exists s3 c b).
Proof. symmetry. unfold Live.check_bucket_exists, check_bucket_exists. cut_steps. Qed.

Lemma live_check_bucket_location s3 c b :
  Live.check_bucket_location rt s3 c b = cut rt (check_bucket_location s3 c b).
Proof. symmetry. unfold Live.check_bucket_location, check_bucket_location. cut_steps. Qed.

Lemma live_check_object_metadata s3 c b k :
  Live.check_object_metadata rt s3 c b k = cut rt (check_object_metadata s3 c b k).
Proof. symmetry. unfold Live.check_object_metadata, check_object_metadata. cut_steps. Qed.

Lemma live_list_similar_objects s3 c b k :
  Live.list_similar_objects rt s3 c b k = cut rt (list_similar_objects s3 c b k).
Proof. symmetry. unfold Live.list_similar_objects, list_similar_objects. cut_steps. Qed.

Lemma live_check_bucket_policy s3 c b :
  Live.check_bucket_policy rt s3 c b = cut rt (check_bucket_policy s3 c b).
Proof. symmetry. unfold Live.check_bucket_policy, check_bucket_policy. cut_steps. Qed.

Lemma live_check_bucket_acl s3 c b :
  Live.check_bucket_acl rt s3 c b = cut rt (check_bucket_acl s3 c b).
Proof. symmetry. unfold Live.check_bucket_acl, check_bucket_acl. cut_steps. Qed.

Lemma live_probe_tail_cut s3 c b k :
  live_probe_tail rt s3 c b k = cut rt (probe_tail s3 c b k).
Proof.
  symmetry. unfold live_probe_tail, probe_tail.
  rewrite live_check_object_metadata, live_list_similar_objects,
    live_check_bucket_policy, live_check_bucket_acl.
  repeat (apply cut_bind; [reflexivity | intros _]). reflexivity.
Qed.

End CutFacts.

Section LiveFacts.

Variable rt : Runtime.

Lemma bind_ret {A B} (a : A) (k : A -> Run B) : bind (ret a) k = k a.
Proof. unfold bind, ret. destruct (k a). reflexivity. Qed.

Lemma live_print_cases text :
  Live.print rt text = print text /\ print_raises rt text = None \/
  exists name, Live.print rt text = ([], Raise (OtherException name)) /\
               print_raises rt text = Some name.
Proof.
  unfold Live.print. destruct (print_raises rt text) as [name|]; [right | left];
    eauto.
Qed.

Lemma live_client_cases session service region :
  Live.client rt session service region = ret (client session service region) /\
  client_raises rt session service region = None \/
  exists x, Live.client rt session service region = ([], Raise x) /\
            client_raises rt session service region = Some x.
Proof.
  unfold Live.client. destruct (client_raises rt session service region) as [x|];
    [right | left]; eauto.
Qed.

(** The calls of a stopped run are the first calls of the run. *)
Lemma calls_cut {A} (m : Run A) :
  exists n, calls (trace (cut rt m)) = firstn n (calls (trace m)).
Proof.
  unfold cut. destruct (accepted rt (trace m)) as [t1 [name|]] eqn:E.
  - destruct (accepted_stops rt _ _ _ E) as (_ & ev & t2 & Ht & _).
    exists (List.length (calls t1)). rewrite Ht, calls_app. cbn [trace fst].
    now rewrite firstn_app, Nat.sub_diag, firstn_O, app_nil_r, firstn_all.
  - exists (List.length (calls (trace m))). now rewrite firstn_all.
Qed.

(** A run that begins with a remote call still does when it is stopped. *)
Lemma cut_probe {A} (m : Run A) c op t :
  trace m = Call c op :: t -> calls t = [] ->
  exists t1, trace (cut rt m) = Call c op :: t1 /\ calls t1 = [].
Proof.
  intros Ht Hc. unfold cut. rewrite Ht. cbn [accepted raises].
  destruct (accepted rt t) as [t1 [name|]] eqn:E; cbn [trace fst].
  - exists t1. split; [reflexivity|].
    destruct (accepted_stops rt _ _ _ E) as (_ & ev & t2 & Heq & _).
    rewrite Heq, calls_app in Hc. now apply app_eq_nil in Hc.
  - exists t. now rewrite Ht.
Qed.

Lemma probe_first {A B} c op (answer : res A) (k : A -> Run B)
      (h : ClientError -> Run B) :
  exists t, trace (try_except (bind (remote c op answer) k) h) = Call c op :: t.
Proof.
  rewrite trace_try_except, trace_bind. cbn [remote trace fst app].
  eexists. reflexivity.
Qed.

Lemma first_and_only {A} (m : Run A) c op :
  (exists t, trace m = Call c op :: t) -> calls (trace m) = [(c, op)] ->
  exists t, trace m = Call c op :: t /\ calls t = [].
Proof.
  intros [t Ht] Hc. exists t. split; [exact Ht|].
  rewrite Ht in Hc. cbn [calls] in Hc. congruence.
Qed.

Lemma live_check_bucket_exists_first s3 c b :
  exists t, trace (Live.check_bucket_exists rt s3 c b) = Call c (HeadBucket b) :: t /\
            calls t = [].
Proof.
  rewrite live_check_bucket_exists.
  destruct (first_and_only (check_bucket_exists s3 c b) c (HeadBucket b))
    as (t & Ht & Hc).
  - apply probe_first.
  - apply check_bucket_exists_run.
  - exact (cut_probe _ _ _ _ Ht Hc).
Qed.

Lemma live_check_bucket_location_first s3 c b :
  exists t, trace (Live.check_bucket_location rt s3 c b) =
            Call c (GetBucketLocation b) :: t /\ calls t = [].
Proof.
  rewrite live_check_bucket_location.
  destruct (first_and_only (check_bucket_location s3 c b) c (GetBucketLocation b))
    as (t & Ht & Hc).
  - apply probe_first.
  - apply check_bucket_location_run.
  - exact (cut_probe _ _ _ _ Ht Hc).
Qed.

Lemma live_check_object_metadata_first s3 c b k :
  exists t, trace (Live.check_object_metadata rt s3 c b k) =
            Call c (HeadObject b k) :: t /\ calls t = [].
Proof.
  rewrite live_check_object_metadata.
  destruct (first_and_only (check_object_metadata s3 c b k) c (HeadObject b k))
    as (t & Ht & Hc).
  - apply probe_first.
  - apply check_object_metadata_calls.
  - exact (cut_probe _ _ _ _ Ht Hc).
Qed.

Lemma live_list_similar_objects_first s3 c b k :
  exists t, trace (Live.list_similar_objects rt s3 c b k) =
            Call c (ListObjectsV2 b (listing_prefix k) 10) :: t /\ calls t = [].
Proof.
  rewrite live_list_similar_objects.
  destruct (first_and_only (list_similar_objects s3 c b k) c
                           (ListObjectsV2 b (listing_prefix k) 10))
    as (t & Ht & Hc).
  - apply probe_first.
  - apply list_similar_objects_calls.
  - exact (cut_probe _ _ _ _ Ht Hc).
Qed.

Lemma live_check_bucket_acl_first s3 c b :
  exists t, trace (Live.check_bucket_acl rt s3 c b) = Call c (GetBucketAcl b) :: t /\
            calls t = [].
Proof.
  rewrite live_check_bucket_acl.
  destruct (first_and_only (check_bucket_acl s3 c b) c (GetBucketAcl b))
    as (t & Ht & Hc).
  - apply probe_first.
  - apply check_bucket_acl_calls.
  - exact (cut_probe _ _ _ _ Ht Hc).
Qed.

(** How far a run on the failing runtime gets: it makes no call, because one
    of the first three texts or the session or the client is rejected; or it
    stops during or after the existence probe; or during or after the
    location probe; or it reaches the four later probes. *)
Lemma live_debug_cases lib s3 url profile region b k :
  extract_bucket_and_key lib url = Ok (b, k) ->
  let live := Live.debug_s3_access rt lib s3 url profile region in
  let c0 := client (mkSession profile) "s3" region in
  let head := [Print ("[bold]Analyzing URL: " ++ url ++ "[/bold]");
               Print ("Bucket: " ++ b); Print ("Key: " ++ k ++ nl)] in
  let E := Live.check_bucket_exists rt s3 c0 b in
  let L := Live.check_bucket_location rt s3 c0 b in
  (calls (trace live) = [] /\
   ~ (forallb (renders rt) head = true /\ session_raises rt profile = None /\
      client_raises rt (mkSession profile) "s3" region = None)) \/
  (exists rest, trace live = (head ++ trace E ++ rest)%list /\ calls rest = []) \/
  (exists rest, trace live = (head ++ trace E ++ trace L ++ rest)%list /\
                calls rest = []) \/
  (exists actual w,
      outcome E = Ok true /\ outcome L = Ok actual /\ calls w = [] /\
      trace live =
      (head ++ trace E ++ trace L ++ w ++
       trace (live_probe_tail rt s3 (next_client profile region actual) b k))%list /\
      outcome live =
      outcome (live_probe_tail rt s3 (next_client profile region actual) b k)).
Proof.
  intros He live c0 head E L. subst live head.
  unfold Live.debug_s3_access. rewrite He, bind_lift_ok. cbv beta iota.
  cbn [forallb]. unfold renders. cbn [raises].
  destruct (live_print_cases ("[bold]Analyzing URL: " ++ url ++ "[/bold]"))
    as [[-> ->] | (n & -> & ->)];
    [|left; split; [reflexivity | intros [H _]; discriminate H]].
  destruct (live_print_cases ("Bucket: " ++ b)) as [[-> ->] | (n & -> & ->)];
    [|left; split; [reflexivity | intros [H _]; discriminate H]].
  destruct (live_print_cases ("Key: " ++ k ++ nl)) as [[-> ->] | (n & -> & ->)];
    [|left; split; [reflexivity | intros [H _]; discriminate H]].
  unfold Live.boto3_Session.
  destruct (session_raises rt profile) as [x|];
    [left; split; [reflexivity | intros (_ & H & _); discriminate H]|].
  do 4 (rewrite ?trace_bind, ?outcome_bind; cbn [print ret trace outcome fst snd app]).
  destruct (live_client_cases (mkSession profile) "s3" region)
    as [[-> ->] | (x & -> & ->)];
    [|left; split; [reflexivity | intros (_ & _ & H); discriminate H]].
  right.
  do 2 (rewrite ?trace_bind, ?outcome_bind; cbn [print ret trace outcome fst snd app]).
  fold c0. fold E.
  destruct (outcome E) as [[|]|x] eqn:HE; cbn [negb].
  2:{ left. exists []. split; reflexivity. }
  2:{ left. exists []. split; reflexivity. }
  right. rewrite ?trace_bind, ?outcome_bind. fold L.
  destruct (outcome L) as [actual|x] eqn:HL.
  2:{ left. exists []. split; reflexivity. }
  unfold next_client. fold c0.
  destruct (truthy actual && truthy region && negb (opt_eqb actual region)) eqn:Ec.
  - destruct (live_print_cases
                ("[yellow]Warning: Specified region " ++ fmt region ++
                 " differs from bucket region " ++ fmt actual ++ "[/yellow]"))
      as [[-> _] | (n & -> & _)].
    2:{ left. exists []. split; reflexivity. }
    destruct (live_client_cases (mkSession profile) "s3" actual)
      as [[-> _] | (x & -> & _)].
    2:{ left. eexists. split; reflexivity. }
    right.
    exists actual, [Print ("[yellow]Warning: Specified region " ++ fmt region ++
                           " differs from bucket region " ++ fmt actual ++ "[/yellow]")].
    rewrite Ec.
    rewrite (trace_bind (bind (print _) _)), (outcome_bind (bind (print _) _)).
    rewrite !(trace_bind (print _)), !(outcome_bind (print _)).
    cbn [print ret trace outcome fst snd app].
    repeat split; reflexivity.
  - right. exists actual, []. rewrite Ec, bind_ret.
    repeat split; reflexivity.
Qed.

Lemma live_debug_no_target lib s3 url profile region x :
  extract_bucket_and_key lib url = Raise x ->
  Live.debug_s3_access rt lib s3 url profile region = ([], Raise x).
Proof. intros H. unfold Live.debug_s3_access. rewrite H. reflexivity. Qed.

(** When the session and the clients can be built, the run on the failing
    runtime is the run of the base model, stopped at the first text that the
    console rejects. *)
Lemma live_debug_cut lib s3 url profile region :
  session_raises rt profile = None ->
  client_raises rt (mkSession profile) "s3" region = None ->
  (forall r, truthy r = true -> client_raises rt (mkSession profile) "s3" r = None) ->
  Live.debug_s3_access rt lib s3 url profile region =
  cut rt (debug_s3_access lib s3 url profile region).
Proof.
  intros Hs Hc Hc'. symmetry. unfold Live.debug_s3_access, debug_s3_access.
  apply cut_bind; [reflexivity | intros [b k]].
  do 3 (apply cut_bind; [apply cut_print | intros _]).
  unfold Live.boto3_Session. rewrite Hs, bind_ret.
  unfold Live.client at 1. rewrite Hc, bind_ret. cbv zeta.
  apply cut_bind; [symmetry; apply live_check_bucket_exists | intros ex].
  destruct (negb ex); [reflexivity|].
  apply cut_bind; [symmetry; apply live_check_bucket_location | intros actual].
  apply cut_bind.
  { destruct (truthy actual && truthy region && negb (opt_eqb actual region)) eqn:Ec;
      [|reflexivity].
    apply cut_bind; [apply cut_print | intros _].
    apply andb_true_iff in Ec. destruct Ec as [Ec _].
    apply andb_true_iff in Ec. destruct Ec as [Ec _].
    unfold Live.client. now rewrite (Hc' actual Ec). }
  intros c1.
  apply cut_bind; [symmetry; apply live_check_object_metadata | intros _].
  apply cut_bind; [symmetry; apply live_list_similar_objects | intros _].
  apply cut_bind; [symmetry; apply live_check_bucket_policy | intros _].
  symmetry. apply live_check_bucket_acl.
Qed.

(** A run that makes a call has printed its three opening lines and built
    its session and its first client. *)
Lemma live_debug_built lib s3 url profile region b k :
  extract_bucket_and_key lib url = Ok (b, k) ->
  calls (trace (Live.debug_s3_access rt lib s3 url profile region)) <> [] ->
  forallb (renders rt)
          [Print ("[bold]Analyzing URL: " ++ url ++ "[/bold]");
           Print ("Bucket: " ++ b); Print ("Key: " ++ k ++ nl)] = true /\
  session_raises rt profile = None /\
  client_raises rt (mkSession profile) "s3" region = None.
Proof.
  intros He Hne. unfold Live.debug_s3_access in Hne.
  rewrite He, bind_lift_ok in Hne. cbv beta iota in Hne.
  cbn [forallb]. unfold renders. cbn [raises].
  destruct (live_print_cases ("[bold]Analyzing URL: " ++ url ++ "[/bold]"))
    as [[E ->] | (n & E & _)]; rewrite E in Hne; [|now elim Hne].
  destruct (live_print_cases ("Bucket: " ++ b))
    as [[E2 ->] | (n & E2 & _)]; rewrite E2 in Hne; [|now elim Hne].
  destruct (live_print_cases ("Key: " ++ k ++ nl))
    as [[E3 ->] | (n & E3 & _)]; rewrite E3 in Hne; [|now elim Hne].
  unfold Live.boto3_Session in Hne.
  destruct (session_raises rt profile) as [x|]; [now elim Hne|].
  do 4 (rewrite ?trace_bind, ?outcome_bind in Hne;
        cbn [print ret trace outcome fst snd app] in Hne).
  destruct (live_client_cases (mkSession profile) "s3" region)
    as [[_ ->] | (x & E4 & _)]; [auto|].
  rewrite E4 in Hne. now elim Hne.
Qed.

(** On a runtime that rejects nothing the run is the run of the base model. *)
Lemma renders_ideal t : forallb (renders ideal) t = true.
Proof. induction t as [|[| |] t IH]; cbn; auto. Qed.

End LiveFacts.

Lemma live_debug_ideal lib s3 url profile region :
  Live.debug_s3_access ideal lib s3 url profile region =
  debug_s3_access lib s3 url profile region.
Proof.
  rewrite live_debug_cut by reflexivity.
  apply cut_renders, renders_ideal.
Qed.

Section LiveRunFacts.

Variable rt : Runtime.

(** The metadata probe of the base model when the query succeeds. *)
Lemma check_object_metadata_found s3 c b k md :
  head_object s3 c b k = Ok md ->
  check_object_metadata s3 c b k =
  (Call c (HeadObject b k) :: Print "[green]Object metadata found:[/green]" ::
   metadata_lines md, Ok true).
Proof.
  intros H. unfold check_object_metadata. rewrite H.
  unfold remote. cbn [bind try_except print ret app].
  rewrite for_each_metadata. cbn [bind ret app].
  now rewrite ?app_nil_r.
Qed.

Lemma accepted_at good ev rest name :
  forallb (renders rt) good = true -> raises rt ev = Some name ->
  accepted rt (good ++ ev :: rest)%list = (good, Some name).
Proof.
  intros Hg He. rewrite accepted_app, (accepted_renders _ _ Hg).
  cbn [accepted]. rewrite He. now rewrite app_nil_r.
Qed.

(** The run of the base model when every query is answered. *)
Lemma debug_s3_access_completes lib s3 url profile region b k :
  extract_bucket_and_key lib url = Ok (b, k) ->
  head_bucket s3 (client (mkSession profile) "s3" region) b = Ok tt ->
  answered (get_bucket_location s3 (client (mkSession profile) "s3" region) b) ->
  (forall c, answered (head_object s3 c b k)) ->
  (forall c, answered (list_objects_v2 s3 c b (listing_prefix k) 10)) ->
  (forall c, answered_with_code (get_bucket_policy s3 c b)) ->
  (forall c, answered (get_bucket_acl s3 c b)) ->
  outcome (debug_s3_access lib s3 url profile region) = Ok tt /\
  map snd (calls (trace (debug_s3_access lib s3 url profile region))) =
  expected_ops b k.
Proof.
  intros He Hh Hl Hm Hls Hp Ha.
  destruct (answered_check_bucket_location _ _ _ Hl) as [actual Hlo].
  destruct (debug_s3_access_reaches_tail _ _ _ _ _ _ _ _ He Hh Hlo) as (Hc & Ho & _).
  set (c1 := next_client profile region actual) in *.
  assert (Ht : outcome (probe_tail s3 c1 b k) = Ok tt).
  { unfold probe_tail. rewrite !outcome_bind.
    destruct (answered_check_object_metadata _ _ _ _ (Hm c1)) as [v1 ->].
    destruct (answered_list_similar_objects _ _ _ _ (Hls c1)) as [v2 ->].
    destruct (answered_check_bucket_policy _ _ _ (Hp c1)) as [v3 ->].
    destruct (answered_check_bucket_acl _ _ _ (Ha c1)) as [[] ->]. reflexivity. }
  split; [now rewrite Ho|].
  destruct (calls_probe_tail s3 c1 b k) as (n & Hn & Hd).
  specialize (Hd Ht). rewrite Hc, Hn.
  rewrite (proj2 (map_snd_probes c1 b k (S n))).
  apply firstn_all2. simpl. lia.
Qed.

Lemma live_check_bucket_policy_first s3 c b :
  exists t, trace (Live.check_bucket_policy rt s3 c b) =
            Call c (GetBucketPolicy b) :: t /\ calls t = [].
Proof.
  rewrite live_check_bucket_policy.
  destruct (first_and_only (check_bucket_policy s3 c b) c (GetBucketPolicy b))
    as (t & Ht & Hc).
  - apply probe_first.
  - apply check_bucket_policy_calls.
  - exact (cut_probe rt _ _ _ _ Ht Hc).
Qed.

(** The policy probe on an error response that carries a code, when the
    console accepts the message. *)
Lemma live_check_bucket_policy_error s3 c b e code :
  get_bucket_policy s3 c b = Raise (ClientErrorExn e) ->
  err_code e = Some code ->
  print_raises rt (policy_error_message code e) = None ->
  Live.check_bucket_policy rt s3 c b =
  ([Call c (GetBucketPolicy b); Print (policy_error_message code e)], Ok tt).
Proof.
  intros Hp Hcode Hr. rewrite live_check_bucket_policy.
  rewrite (check_bucket_policy_error _ _ _ _ _ Hp Hcode).
  apply cut_renders. cbn [trace fst forallb]. unfold renders. cbn [raises].
  now rewrite Hr.
Qed.

(** The later probes of a run in which the policy query is made. *)
Lemma live_tail_policy s3 c1 bk k c b :
  In (c, GetBucketPolicy b) (calls (trace (live_probe_tail rt s3 c1 bk k))) ->
  c = c1 /\ b = bk /\
  exists pre,
    trace (live_probe_tail rt s3 c1 bk k) =
    (pre ++ trace (Live.check_bucket_policy rt s3 c1 bk) ++
     match outcome (Live.check_bucket_policy rt s3 c1 bk) with
     | Ok _ => trace (Live.check_bucket_acl rt s3 c1 bk)
     | Raise _ => []
     end)%list.
Proof.
  unfold live_probe_tail. rewrite !trace_bind, ?outcome_bind.
  destruct (live_check_object_metadata_first rt s3 c1 bk k) as (tm & Hm & Hcm).
  destruct (live_list_similar_objects_first rt s3 c1 bk k) as (tl & Hl & Hcl).
  destruct (live_check_bucket_policy_first s3 c1 bk) as (tp & Hp & Hcp).
  destruct (live_check_bucket_acl_first rt s3 c1 bk) as (ta & Ha & Hca).
  intros Hin.
  assert (Hpre : forall t, In (c, GetBucketPolicy b)
                              (calls (Call c1 (HeadObject bk k) :: tm ++ t)) ->
                           In (c, GetBucketPolicy b) (calls t)).
  { intros t H. cbn [calls] in H. rewrite calls_app, Hcm in H.
    destruct H as [H|H]; [discriminate H | exact H]. }
  assert (Hpre2 : forall t, In (c, GetBucketPolicy b)
                               (calls (Call c1 (ListObjectsV2 bk (listing_prefix k) 10)
                                         :: tl ++ t)) ->
                            In (c, GetBucketPolicy b) (calls t)).
  { intros t H. cbn [calls] in H. rewrite calls_app, Hcl in H.
    destruct H as [H|H]; [discriminate H | exact H]. }
  rewrite Hm in Hin. cbn [app] in Hin. apply Hpre in Hin.
  destruct (outcome (Live.check_object_metadata rt s3 c1 bk k)); [|contradiction].
  rewrite Hl in Hin. cbn [app] in Hin. apply Hpre2 in Hin.
  destruct (outcome (Live.list_similar_objects rt s3 c1 bk k)); [|contradiction].
  assert (E : (c, GetBucketPolicy b) = (c1, GetBucketPolicy bk)).
  { rewrite Hp in Hin. cbn [app calls] in Hin. rewrite calls_app, Hcp in Hin.
    destruct Hin as [H|H]; [now symmetry|]. cbn [app] in H.
    destruct (outcome (Live.check_bucket_policy rt s3 c1 bk)); [|contradiction].
    rewrite Ha in H. cbn [calls] in H. rewrite Hca in H.
    destruct H as [H|[]]. discriminate H. }
  injection E as -> ->. split; [reflexivity|]. split; [reflexivity|].
  exists (trace (Live.check_object_metadata rt s3 c1 bk k) ++
          trace (Live.list_similar_objects rt s3 c1 bk k))%list.
  now rewrite <- app_assoc.
Qed.

Lemma firstn_firstn_exists {A} n m (l : list A) :
  exists j, firstn n (firstn m l) = firstn j l.
Proof. exists (Nat.min n m). apply firstn_firstn. Qed.

End LiveRunFacts.

(** * The claim about the policy probe *)

(** C7, as stated, fails: "any other error" of the policy fetch is not always
    reported, and the ACL probe does not always follow.  When the fetch fails
    before any response (here with [EndpointConnectionError]), or with an
    error response that carries no code (the handler's lookup of the code
    then raises [KeyError]), the run ends at the policy query: that query is
    its last remote call and the exception leaves the run. *)
Lemma C7_counterexample :
  map snd (calls (trace (Live.debug_s3_access ideal lenient unreachable_policy_service
                                              sample_url None None))) =
    [HeadBucket "my-bucket"; GetBucketLocation "my-bucket";
     HeadObject "my-bucket" "folder/file.txt"; ListObjectsV2 "my-bucket" "folder" 10;
     GetBucketPolicy "my-bucket"] /\
  outcome (Live.debug_s3_access ideal lenient unreachable_policy_service
                                sample_url None None) =
    Raise (OtherException "EndpointConnectionError") /\
  map snd (calls (trace (Live.debug_s3_access ideal lenient codeless_policy_service
                                              sample_url None None))) =
    [HeadBucket "my-bucket"; GetBucketLocation "my-bucket";
     HeadObject "my-bucket" "folder/file.txt"; ListObjectsV2 "my-bucket" "folder" 10;
     GetBucketPolicy "my-bucket"] /\
  outcome (Live.debug_s3_access ideal lenient codeless_policy_service
                                sample_url None None) = Raise KeyError.
Proof. repeat split; vm_compute; reflexivity. Qed.

(** C7, amended.  In every run that reaches the bucket policy probe, when the
    policy fetch answers with an error response that carries a code, the
    probe prints one line, the informational "No bucket policy found" for the
    code [NoSuchBucketPolicy] and an error line for any other code, and, that
    line being printed, the ACL query is what the run does next.  The run is
    the one in which the console and the SDK constructors can fail. *)
Theorem C7_policy_error_then_acl :
  forall rt lib s3 url profile region c b e code,
    In (c, GetBucketPolicy b)
       (calls (trace (Live.debug_s3_access rt lib s3 url profile region))) ->
    get_bucket_policy s3 c b = Raise (ClientErrorExn e) ->
    err_code e = Some code ->
    print_raises rt (policy_error_message code e) = None ->
    exists pre post msg,
      trace (Live.debug_s3_access rt lib s3 url profile region) =
      (pre ++ [Call c (GetBucketPolicy b); Print msg; Call c (GetBucketAcl b)]
           ++ post)%list /\
      (code = "NoSuchBucketPolicy" ->
       msg = "[yellow]No bucket policy found[/yellow]") /\
      (code <> "NoSuchBucketPolicy" ->
       msg = "[red]Error getting bucket policy: " ++ err_str e ++ "[/red]").
Proof.
  intros rt lib s3 url profile region c b e code Hin Hp Hcode Hr.
  destruct (extract_bucket_and_key lib url) as [[bk k]|x] eqn:He.
  2:{ rewrite (live_debug_no_target rt _ _ _ _ _ _ He) in Hin. contradiction. }
  set (c0 := client (mkSession profile) "s3" region) in *.
  destruct (live_check_bucket_exists_first rt s3 c0 bk) as (te & HE & HcE).
  destruct (live_check_bucket_location_first rt s3 c0 bk) as (tl & HL & HcL).
  pose proof (live_debug_cases rt lib s3 url profile region bk k He) as Hcases.
  cbv zeta in Hcases. fold c0 in Hcases.
  destruct Hcases
    as [[H _] | [(rest & Ht & Hc) | [(rest & Ht & Hc) | (actual & w & _ & _ & Hw & Ht & _)]]].
  - rewrite H in Hin. contradiction.
  - rewrite Ht, HE in Hin. cbn [app calls] in Hin. rewrite calls_app, HcE, Hc in Hin.
    destruct Hin as [H|[]]. discriminate H.
  - rewrite Ht, HE, HL in Hin. cbn [app calls] in Hin.
    rewrite calls_app, HcE in Hin. cbn [app calls] in Hin.
    rewrite calls_app, HcL, Hc in Hin.
    destruct Hin as [H|[H|[]]]; discriminate H.
  - set (c1 := next_client profile region actual) in *.
    assert (Hin' : In (c, GetBucketPolicy b) (calls (trace (live_probe_tail rt s3 c1 bk k)))).
    { rewrite Ht, HE, HL in Hin. cbn [app calls] in Hin.
      rewrite calls_app, HcE in Hin. cbn [app calls] in Hin.
      rewrite calls_app, HcL, calls_app, Hw in Hin.
      destruct Hin as [H|[H|H]]; try discriminate H. exact H. }
    destruct (live_tail_policy rt _ _ _ _ _ _ Hin') as (Ec & Eb & pre & Htail).
    subst b c.
    rewrite (live_check_bucket_policy_error rt _ _ _ _ _ Hp Hcode Hr) in Htail.
    cbn [trace outcome fst snd] in Htail.
    destruct (live_check_bucket_acl_first rt s3 c1 bk) as (ta & Ha & _).
    rewrite Ha in Htail.
    exists ([Print ("[bold]Analyzing URL: " ++ url ++ "[/bold]");
             Print ("Bucket: " ++ bk); Print ("Key: " ++ k ++ nl)] ++
            trace (Live.check_bucket_exists rt s3 c0 bk) ++
            trace (Live.check_bucket_location rt s3 c0 bk) ++ w ++ pre)%list,
           ta, (policy_error_message code e).
    split.
    + rewrite Ht, Htail. rewrite <- !app_assoc. reflexivity.
    + unfold policy_error_message. split.
      * intros ->. reflexivity.
      * intros Hn. apply String.eqb_neq in Hn. now rewrite Hn.
Qed.

Lemma C7_policy_error_then_acl_witness :
  exists pre post msg,
    trace (Live.debug_s3_access sample_runtime lenient sample_service sample_url
                                None None) =
    (pre ++ [Call (client (mkSession None) "s3" None) (GetBucketPolicy "my-bucket");
             Print msg;
             Call (client (mkSession None) "s3" None) (GetBucketAcl "my-bucket")]
         ++ post)%list /\
    msg = "[yellow]No bucket policy found[/yellow]".
Proof.
  destruct (C7_policy_error_then_acl sample_runtime lenient sample_service sample_url
              None None (client (mkSession None) "s3" None) "my-bucket"
              (mkClientError (Some "NoSuchBucketPolicy") "none") "NoSuchBucketPolicy")
    as (pre & post & msg & Ht & Hy & _).
  - vm_compute. tauto.
  - reflexivity.
  - reflexivity.
  - reflexivity.
  - exists pre, post, msg. split; [exact Ht | apply Hy; reflexivity].
Defined.

(** * Further properties of the resolver *)

(** X1.  The resolver raises nothing but [ValueError], and only when the URL
    holds no [.s3.] and [urlparse] rejects it: its list indexing never
    fails. *)
Theorem X1_resolver_raises_only_ValueError :
  forall lib url x,
    extract_bucket_and_key lib url = Raise x ->
    x = ValueError /\ contains ".s3." url = false /\
    urlparse lib url = Raise ValueError.
Proof. exact extract_raises. Qed.

Lemma X1_resolver_raises_only_ValueError_witness :
  contains ".s3." "https://[::1/my-bucket/key" = false /\
  urlparse strict "https://[::1/my-bucket/key" = Raise ValueError.
Proof.
  refine (proj2 (X1_resolver_raises_only_ValueError strict
                   "https://[::1/my-bucket/key" ValueError _)).
  reflexivity.
Defined.

(** X2.  In the virtual-hosted branch (the URL holds [.s3.]) the returned
    bucket holds neither [/] nor [.s3.], and the returned key does not hold
    [.amazonaws.com/]. *)
Theorem X2_virtual_hosted_parts :
  forall lib url b k,
    contains ".s3." url = true ->
    extract_bucket_and_key lib url = Ok (b, k) ->
    contains "/" b = false /\ contains ".s3." b = false /\
    contains ".amazonaws.com/" k = false.
Proof. exact extract_virtual_parts. Qed.

Lemma X2_virtual_hosted_parts_witness :
  contains "/" "my-bucket" = false /\ contains ".s3." "my-bucket" = false /\
  contains ".amazonaws.com/" "folder/file.txt" = false.
Proof.
  refine (X2_virtual_hosted_parts lenient
            "https://my-bucket.s3.us-west-2.amazonaws.com/folder/file.txt"
            "my-bucket" "folder/file.txt" _ _); reflexivity.
Defined.

(** X3.  In the path-style branch the bucket and the key put the parsed path
    back together: the bucket holds no [/], and the path without its leading
    slashes is the bucket alone (with an empty key) or bucket, [/] and
    key. *)
Theorem X3_path_style_recomposes :
  forall lib url r b k,
    contains ".s3." url = false ->
    urlparse lib url = Ok r ->
    extract_bucket_and_key lib url = Ok (b, k) ->
    contains "/" b = false /\
    (lstrip "/" (path r) = b /\ k = "" \/ lstrip "/" (path r) = b ++ "/" ++ k).
Proof. exact extract_path_recompose. Qed.

Lemma X3_path_style_recomposes_witness :
  contains "/" "my-bucket" = false /\
  (lstrip "/" "/my-bucket/folder/file.txt" = "my-bucket" /\ "folder/file.txt" = "" \/
   lstrip "/" "/my-bucket/folder/file.txt" = "my-bucket" ++ "/" ++ "folder/file.txt").
Proof.
  refine (X3_path_style_recomposes lenient sample_url
            (mkParseResult "https" "s3.amazonaws.com" "/my-bucket/folder/file.txt" "" "" "")
            "my-bucket" "folder/file.txt" _ _ _); reflexivity.
Defined.

(** X4.  A path-style URL whose key holds [.s3.] is resolved by the
    virtual-hosted rule: for [https://s3.amazonaws.com/B/x.s3.y], with no
    [/] in [x] and no earlier [.s3.], the bucket returned is [x] and the key
    is [B/x.s3.y]. *)
Theorem X4_path_style_key_with_s3_marker :
  forall lib B x y,
    contains "/" x = false ->
    contains ".s3." ("https://s3.amazonaws.com/" ++ B ++ "/" ++ x ++ ".s3") = false ->
    contains ".amazonaws.com/" (B ++ "/" ++ x ++ ".s3." ++ y) = false ->
    extract_bucket_and_key lib ("https://s3.amazonaws.com/" ++ B ++ "/" ++ x ++ ".s3." ++ y)
    = Ok (x, B ++ "/" ++ x ++ ".s3." ++ y).
Proof.
  intros lib B x y Hx Hs Hk.
  apply (extract_virtual_general lib _ ("https://s3.amazonaws.com/" ++ B ++ "/") x y
                                 "https://s3"); auto.
  - now rewrite !append_assoc.
  - right. exists ("https://s3.amazonaws.com/" ++ B). now rewrite !append_assoc.
  - rewrite !append_assoc in *. exact Hs.
Qed.

Lemma X4_path_style_key_with_s3_marker_witness :
  extract_bucket_and_key lenient "https://s3.amazonaws.com/my-bucket/backup.s3.tar"
  = Ok ("backup", "my-bucket/backup.s3.tar").
Proof.
  apply (X4_path_style_key_with_s3_marker lenient "my-bucket" "backup" "tar");
    reflexivity.
Defined.

(** X5.  The path-style branch ignores the scheme and the host: for the
    schemes [http], [https] and [s3], any ASCII host [H] without [/], [?],
    [#], brackets or tab, line feed, carriage return, and any query or
    fragment [t] after the key, the URL [scheme://H/B/K t] resolves to
    [(B, K)] when it holds no [.s3.].  So an [s3://bucket/key] URI resolves
    to the first segment of its key, not to its bucket. *)
Theorem X5_path_style_any_host :
  forall lib sch H B K t,
    In sch path_style_schemes ->
    free_of host_reserved H = true ->
    all_chars isascii H = true ->
    B <> "" -> contains "/" B = false ->
    free_of url_reserved B = true -> free_of url_reserved K = true ->
    opens_query_or_fragment t = true ->
    contains ".s3." (sch ++ "://" ++ H ++ "/" ++ B ++ "/" ++ K ++ t) = false ->
    extract_bucket_and_key lib (sch ++ "://" ++ H ++ "/" ++ B ++ "/" ++ K ++ t)
    = Ok (B, K).
Proof.
  intros lib sch H B K t Hsch HH Hascii HB Hslash HfB HfK Ht Hs.
  assert (Hq : free_of url_reserved (B ++ "/" ++ K) = true).
  { rewrite !free_of_append, HfB, HfK. reflexivity. }
  destruct (urlparse_any_host lib sch H _ t Hsch HH Hascii Hq Ht) as (qu & fr & Hp).
  rewrite !append_assoc in Hp.
  destruct (extract_path_style lib _ _ 1 B Hs Hp Hslash) as [E _].
  apply E; [exact HB | reflexivity].
Qed.

Lemma X5_path_style_any_host_witness :
  extract_bucket_and_key lenient
    ("http" ++ "://" ++ "minio.example.com:9000" ++ "/" ++ "my-bucket" ++ "/" ++
     "folder/file.txt" ++ "?versionId=3")
  = Ok ("my-bucket", "folder/file.txt") /\
  extract_bucket_and_key lenient
    ("s3" ++ "://" ++ "my-bucket" ++ "/" ++ "folder" ++ "/" ++ "file.txt" ++ "")
  = Ok ("folder", "file.txt").
Proof.
  split.
  - apply X5_path_style_any_host; try reflexivity; [left; reflexivity | discriminate].
  - apply X5_path_style_any_host; try reflexivity; [do 2 right; left; reflexivity | discriminate].
Defined.

(** X6.  A bare [B/K] without scheme or host resolves to [(B, K)], whatever
    query or fragment follows: [B] is non-empty and holds no [/], no [:], no
    space or control character, and neither [B] nor [K] holds [?], [#], [;],
    tab, line feed or carriage return; the string holds no [.s3.]. *)
Theorem X6_bare_path_resolves :
  forall lib B K t,
    B <> "" ->
    contains "/" B = false ->
    contains ":" B = false ->
    free_of _WHATWG_C0_CONTROL_OR_SPACE B = true ->
    free_of url_reserved B = true ->
    free_of url_reserved K = true ->
    opens_query_or_fragment t = true ->
    contains ".s3." (B ++ "/" ++ K ++ t) = false ->
    extract_bucket_and_key lib (B ++ "/" ++ K ++ t) = Ok (B, K).
Proof.
  intros lib B K t HB Hslash Hcolon Hsp HfB HfK Ht Hs.
  destruct (urlparse_bare lib B K t HB Hslash Hcolon Hsp HfB HfK Ht) as (qu & fr & Hp).
  destruct (extract_path_style lib _ _ 0 B Hs Hp Hslash) as [E _].
  apply E; [exact HB | reflexivity].
Qed.

Lemma X6_bare_path_resolves_witness :
  extract_bucket_and_key lenient ("my-bucket" ++ "/" ++ "logs/2024:01.txt" ++ "#top")
  = Ok ("my-bucket", "logs/2024:01.txt").
Proof.
  apply X6_bare_path_resolves; try reflexivity. discriminate.
Defined.

(** X7.  Where the virtual-hosted branch is right: for a URL
    [pre B .s3. R .amazonaws.com/ K] in which [pre] is empty or ends with
    [/], [B] holds no [/], [.s3.] does not occur before the one that follows
    [B], and [K] does not hold [.amazonaws.com/], the resolver returns
    [(B, K)], whatever [?], [#] or [;] the key holds. *)
Theorem X7_virtual_hosted_resolves :
  forall lib pre B R K,
    pre = "" \/ (exists p, pre = p ++ "/") ->
    contains "/" B = false ->
    contains ".s3." (pre ++ B ++ ".s3") = false ->
    contains ".amazonaws.com/" K = false ->
    extract_bucket_and_key lib (pre ++ B ++ ".s3." ++ R ++ ".amazonaws.com/" ++ K)
    = Ok (B, K).
Proof.
  intros lib pre B R K Hpre HB Hs HK.
  apply (extract_virtual_general lib _ pre B (R ++ ".amazonaws.com/" ++ K)
                                 (pre ++ B ++ ".s3." ++ R)); auto.
  now rewrite !append_assoc.
Qed.

Lemma X7_virtual_hosted_resolves_witness :
  extract_bucket_and_key lenient
    ("http://" ++ "my.bucket" ++ ".s3." ++ "us-west-2" ++ ".amazonaws.com/" ++
     "folder/file.txt?versionId=3")
  = Ok ("my.bucket", "folder/file.txt?versionId=3").
Proof.
  apply X7_virtual_hosted_resolves; try reflexivity.
  right. exists "http:/". reflexivity.
Defined.

(** X8.  The prefix that the listing probe sends is always a prefix of the
    key: whatever the service answers, the one remote call of the probe is
    [list_objects_v2] with a [Prefix] that the key starts with, and when the
    key holds [/] the key is that prefix, a [/], and a last segment without
    [/]. *)
Theorem X8_listing_prefix_is_prefix :
  forall s3 c b key,
    exists p,
      calls (trace (list_similar_objects s3 c b key)) = [(c, ListObjectsV2 b p 10)] /\
      startswith p key = true /\
      (contains "/" key = true ->
       exists name, contains "/" name = false /\ key = p ++ "/" ++ name).
Proof.
  intros s3 c b key. exists (listing_prefix key).
  split; [apply list_similar_objects_calls|].
  destruct (contains "/" key) eqn:Hc.
  - destruct (last_segment key Hc) as (dir & name & E & Hn).
    subst key. rewrite (listing_prefix_dir dir name Hn).
    split; [apply startswith_append|]. intros _. exists name. auto.
  - rewrite (listing_prefix_flat key Hc). split; [reflexivity | discriminate].
Qed.

Lemma X8_listing_prefix_is_prefix_witness :
  exists p,
    calls (trace (list_similar_objects sample_service (client (mkSession None) "s3" None)
                                       "my-bucket" "folder/sub/file.txt")) =
      [(client (mkSession None) "s3" None, ListObjectsV2 "my-bucket" p 10)] /\
    startswith p "folder/sub/file.txt" = true /\
    exists name, contains "/" name = false /\ "folder/sub/file.txt" = p ++ "/" ++ name.
Proof.
  destruct (X8_listing_prefix_is_prefix sample_service (client (mkSession None) "s3" None)
              "my-bucket" "folder/sub/file.txt") as (p & H1 & H2 & H3).
  exists p. split; [exact H1|]. split; [exact H2 | apply H3; reflexivity].
Defined.

(** * Further properties of the probes and of a run *)

(** X9.  When the metadata query succeeds, the metadata probe has the heading
    and then one line [key: value] for each item of the response to print,
    in order, leaving out the items whose key is [ResponseMetadata].  If the
    console accepts all of them, the probe prints them and returns [True]; if
    it rejects one, the probe has printed those before it and ends with the
    console's exception. *)
Theorem X9_metadata_lines :
  forall rt s3 c b k md,
    head_object s3 c b k = Ok md ->
    (forallb (renders rt)
             (Print "[green]Object metadata found:[/green]" :: metadata_lines md) = true ->
     Live.check_object_metadata rt s3 c b k =
     (Call c (HeadObject b k) :: Print "[green]Object metadata found:[/green]" ::
      metadata_lines md, Ok true)) /\
    (forall good text rest name,
        Print "[green]Object metadata found:[/green]" :: metadata_lines md =
        (good ++ Print text :: rest)%list ->
        forallb (renders rt) good = true ->
        print_raises rt text = Some name ->
        Live.check_object_metadata rt s3 c b k =
        (Call c (HeadObject b k) :: good, Raise (OtherException name))).
Proof.
  intros rt s3 c b k md H.
  rewrite live_check_object_metadata, (check_object_metadata_found _ _ _ _ _ H).
  split.
  - intros Hr. apply cut_renders. exact Hr.
  - intros good text rest name E Hg Hn. unfold cut. cbn [trace fst].
    change (Call c (HeadObject b k) :: Print "[green]Object metadata found:[/green]"
                 :: metadata_lines md)
      with ([Call c (HeadObject b k)] ++
            Print "[green]Object metadata found:[/green]" :: metadata_lines md)%list.
    rewrite E, app_assoc.
    rewrite (accepted_at rt ([Call c (HeadObject b k)] ++ good) (Print text) rest name);
      [reflexivity | exact Hg | exact Hn].
Qed.

Lemma X9_metadata_lines_witness :
  Live.check_object_metadata sample_runtime sample_service
                             (client (mkSession None) "s3" None)
                             "my-bucket" "folder/file.txt" =
  ([Call (client (mkSession None) "s3" None) (HeadObject "my-bucket" "folder/file.txt");
    Print "[green]Object metadata found:[/green]"; Print "ContentLength: 12"],
   Ok true) /\
  Live.check_object_metadata sample_runtime tagged_metadata_service
                             (client (mkSession None) "s3" None)
                             "my-bucket" "folder/file.txt" =
  ([Call (client (mkSession None) "s3" None) (HeadObject "my-bucket" "folder/file.txt");
    Print "[green]Object metadata found:[/green]"; Print "ContentLength: 12"],
   Raise (OtherException "MarkupError")).
Proof.
  split.
  - apply (proj1 (X9_metadata_lines sample_runtime sample_service
                    (client (mkSession None) "s3" None) "my-bucket" "folder/file.txt"
                    [("ContentLength", "12"); ("ResponseMetadata", "{}")] eq_refl)).
    reflexivity.
  - apply (proj2 (X9_metadata_lines sample_runtime tagged_metadata_service
                    (client (mkSession None) "s3" None) "my-bucket" "folder/file.txt"
                    [("ContentLength", "12"); ("ContentType", "text[/]plain");
                     ("ETag", "abc")] eq_refl)
                 [Print "[green]Object metadata found:[/green]"; Print "ContentLength: 12"]
                 "ContentType: text[/]plain" [Print "ETag: abc"] "MarkupError");
      reflexivity.
Defined.

(** X10.  When the URL resolves to a bucket and a key, the remote operations
    of a run are, whatever the service answers and whatever the console or
    the SDK rejects, an initial part of the fixed sequence HeadBucket,
    GetBucketLocation, HeadObject, ListObjectsV2 (on the listing prefix of
    the key, at most 10 keys), GetBucketPolicy, GetBucketAcl, each on the
    resolved bucket; the part is not empty when the console accepts the three
    opening lines and the session and the first client are built. *)
Theorem X10_calls_in_fixed_order :
  forall rt lib s3 url profile region b k,
    extract_bucket_and_key lib url = Ok (b, k) ->
    exists n,
      map snd (calls (trace (Live.debug_s3_access rt lib s3 url profile region))) =
      firstn n (expected_ops b k) /\
      (forallb (renders rt)
               [Print ("[bold]Analyzing URL: " ++ url ++ "[/bold]");
                Print ("Bucket: " ++ b); Print ("Key: " ++ k ++ nl)] = true ->
       session_raises rt profile = None ->
       client_raises rt (mkSession profile) "s3" region = None ->
       1 <= n).
Proof.
  intros rt lib s3 url profile region b k He.
  set (c0 := client (mkSession profile) "s3" region).
  destruct (live_check_bucket_exists_first rt s3 c0 b) as (te & HE & HcE).
  destruct (live_check_bucket_location_first rt s3 c0 b) as (tl & HL & HcL).
  pose proof (live_debug_cases rt lib s3 url profile region b k He) as Hcases.
  cbv zeta in Hcases. fold c0 in Hcases.
  destruct Hcases
    as [[H Hno] | [(rest & Ht & Hc) | [(rest & Ht & Hc) |
                                       (actual & w & _ & _ & Hw & Ht & _)]]].
  - exists 0. rewrite H. split; [reflexivity|]. intros H1 H2 H3.
    elim Hno. auto.
  - exists 1. rewrite Ht, HE. cbn [app calls]. rewrite calls_app, HcE, Hc.
    split; [reflexivity | lia].
  - exists 2. rewrite Ht, HE, HL. cbn [app calls]. rewrite calls_app, HcE.
    cbn [app calls]. rewrite calls_app, HcL, Hc.
    split; [reflexivity | lia].
  - set (c1 := next_client profile region actual) in *.
    destruct (calls_cut rt (probe_tail s3 c1 b k)) as [n Hn].
    destruct (calls_probe_tail s3 c1 b k) as (m & Hm & _).
    rewrite <- live_probe_tail_cut, Hm in Hn.
    destruct (firstn_firstn_exists n (S m) (probes_after_location c1 b k)) as [j Hj].
    rewrite Hj in Hn.
    exists (S (S j)). rewrite Ht, HE, HL. cbn [app calls]. rewrite calls_app, HcE.
    cbn [app calls]. rewrite calls_app, HcL, calls_app, Hw, Hn. cbn [app].
    split; [apply (proj2 (map_snd_probes c1 b k j)) | lia].
Qed.

Lemma X10_calls_in_fixed_order_witness :
  exists n,
    map snd (calls (trace (Live.debug_s3_access sample_runtime lenient sample_service
                                                sample_url None (Some "eu-west-1")))) =
    firstn n (expected_ops "my-bucket" "folder/file.txt") /\ 1 <= n.
Proof.
  destruct (X10_calls_in_fixed_order sample_runtime lenient sample_service sample_url None
              (Some "eu-west-1") "my-bucket" "folder/file.txt" eq_refl) as (n & H1 & H2).
  exists n. split; [exact H1 | apply H2; reflexivity].
Defined.

(** X11.  When the URL resolves, the bucket exists, the service answers each
    later query with a payload or with an error response (one that carries an
    error code, for the policy query), the session and the clients are built,
    and the console accepts every text and table of the run, the run issues
    all six operations and ends without an exception: a missing object, a
    failed listing, a missing policy or an unreadable ACL does not stop
    it. *)
Theorem X11_run_completes :
  forall rt lib s3 url profile region b k,
    extract_bucket_and_key lib url = Ok (b, k) ->
    head_bucket s3 (client (mkSession profile) "s3" region) b = Ok tt ->
    answered (get_bucket_location s3 (client (mkSession profile) "s3" region) b) ->
    (forall c, answered (head_object s3 c b k)) ->
    (forall c, answered (list_objects_v2 s3 c b (listing_prefix k) 10)) ->
    (forall c, answered_with_code (get_bucket_policy s3 c b)) ->
    (forall c, answered (get_bucket_acl s3 c b)) ->
    session_raises rt profile = None ->
    client_raises rt (mkSession profile) "s3" region = None ->
    (forall r, truthy r = true -> client_raises rt (mkSession profile) "s3" r = None) ->
    forallb (renders rt) (trace (debug_s3_access lib s3 url profile region)) = true ->
    outcome (Live.debug_s3_access rt lib s3 url profile region) = Ok tt /\
    map snd (calls (trace (Live.debug_s3_access rt lib s3 url profile region))) =
    expected_ops b k.
Proof.
  intros rt lib s3 url profile region b k He Hh Hl Hm Hls Hp Ha Hs Hc Hc' Hr.
  rewrite (live_debug_cut rt lib s3 url profile region Hs Hc Hc'), (cut_renders rt _ Hr).
  exact (debug_s3_access_completes lib s3 url profile region b k He Hh Hl Hm Hls Hp Ha).
Qed.

Lemma X11_run_completes_witness :
  outcome (Live.debug_s3_access sample_runtime lenient sample_service sample_url None
                                (Some "us-east-1")) = Ok tt /\
  map snd (calls (trace (Live.debug_s3_access sample_runtime lenient sample_service
                                              sample_url None (Some "us-east-1")))) =
  expected_ops "my-bucket" "folder/file.txt".
Proof.
  apply (X11_run_completes sample_runtime lenient sample_service sample_url None
           (Some "us-east-1") "my-bucket" "folder/file.txt").
  - reflexivity.
  - reflexivity.
  - exact I.
  - intros c. simpl.
    destruct (opt_eqb (region_name c) (Some "eu-west-1") || opt_eqb (region_name c) None);
      exact I.
  - intros c. exact I.
  - intros c. simpl. discriminate.
  - intros c. exact I.
  - reflexivity.
  - reflexivity.
  - intros [r|] Hr; [|discriminate Hr]. simpl in *.
    apply negb_true_iff in Hr. now rewrite Hr.
  - reflexivity.
Defined.

(** X12.  No [ClientError] leaves a run: for every URL, service, profile and
    region hint, the run does not end with an uncaught [ClientError]. *)
Theorem X12_no_ClientError_escapes :
  forall lib s3 url profile region e,
    outcome (debug_s3_access lib s3 url profile region) <> Raise (ClientErrorExn e).
Proof.
  intros lib s3 url profile region.
  unfold debug_s3_access. apply nce_bind.
  - intros e H. cbn [lift outcome snd] in H.
    apply extract_raises in H. destruct H as [H _]. discriminate.
  - intros [b k]. apply nce_bind; [discriminate | intros _].
    apply nce_bind; [discriminate | intros _].
    apply nce_bind; [discriminate | intros _].
    apply nce_bind; [intros e; apply nce_check_bucket_exists | intros ex].
    destruct ex; cbn [negb]; [|discriminate].
    apply nce_bind; [intros e; apply nce_check_bucket_location | intros actual].
    apply nce_bind.
    { destruct (truthy actual && truthy region && negb (opt_eqb actual region));
        discriminate. }
    intros c1.
    apply nce_bind; [intros e; apply nce_check_object_metadata | intros _].
    apply nce_bind; [intros e; apply nce_list_similar_objects | intros _].
    apply nce_bind; [intros e; apply nce_check_bucket_policy | intros _].
    intros e. apply nce_check_bucket_acl.
Qed.

(** X13.  When the policy query of a run is answered with an error response
    that carries no error code, the handler's lookup of the code raises
    [KeyError]: the run ends with that exception, the policy query is its
    last remote call, and the ACL query is never made. *)
Theorem X13_policy_error_without_code :
  forall lib s3 url profile region c b e,
    In (c, GetBucketPolicy b)
       (calls (trace (debug_s3_access lib s3 url profile region))) ->
    get_bucket_policy s3 c b = Raise (ClientErrorExn e) ->
    err_code e = None ->
    outcome (debug_s3_access lib s3 url profile region) = Raise KeyError /\
    (exists pre, calls (trace (debug_s3_access lib s3 url profile region)) =
                 (pre ++ [(c, GetBucketPolicy b)])%list) /\
    (forall c' b', ~ In (c', GetBucketAcl b')
                      (calls (trace (debug_s3_access lib s3 url profile region)))).
Proof.
  intros lib s3 url profile region c b e Hin Hp Hcode.
  set (c0 := client (mkSession profile) "s3" region) in *.
  destruct (extract_bucket_and_key lib url) as [[bk k]|x] eqn:He.
  2:{ rewrite (debug_s3_access_no_target _ _ _ _ _ _ He) in Hin. contradiction. }
  destruct (head_bucket s3 c0 bk) as [[]|x] eqn:Hh.
  2:{ destruct (debug_s3_access_stops_at_existence _ _ _ _ _ _ _ _ He Hh) as [Hc _].
      rewrite Hc in Hin. destruct Hin as [H|[]]. discriminate H. }
  destruct (outcome (check_bucket_location s3 c0 bk)) as [actual|x] eqn:Hl.
  2:{ rewrite (debug_s3_access_stops_at_location _ _ _ _ _ _ _ _ He Hh Hl) in Hin.
      destruct Hin as [H|[H|[]]]; discriminate H. }
  destruct (debug_s3_access_reaches_tail _ _ _ _ _ _ _ _ He Hh Hl) as (Hc & Ho & _).
  rewrite Hc in Hin. destruct Hin as [H|[H|Hin]]; try discriminate H.
  destruct (probe_tail_policy_reached _ _ _ _ _ _ Hin) as (Ec & Eb & Ht & Hto).
  subst b. rewrite <- Ec in Ht, Hto, Ho, Hc.
  rewrite (check_bucket_policy_codeless _ _ _ _ Hp Hcode) in Ht, Hto.
  cbn [outcome snd app] in Ht, Hto.
  rewrite Hc, Ho, Ht. split; [exact Hto|]. split.
  - exists [(c0, HeadBucket bk); (c0, GetBucketLocation bk);
            (c, HeadObject bk k); (c, ListObjectsV2 bk (listing_prefix k) 10)].
    reflexivity.
  - intros c' b' H.
    repeat (destruct H as [H|H]; try discriminate H). contradiction.
Qed.

Lemma X13_policy_error_without_code_witness :
  outcome (debug_s3_access lenient codeless_policy_service sample_url None None) =
    Raise KeyError /\
  (exists pre, calls (trace (debug_s3_access lenient codeless_policy_service sample_url
                                              None None)) =
               (pre ++ [(client (mkSession None) "s3" None,
                         GetBucketPolicy "my-bucket")])%list) /\
  (forall c' b', ~ In (c', GetBucketAcl b')
                    (calls (trace (debug_s3_access lenient codeless_policy_service
                                                   sample_url None None)))).
Proof.
  apply (X13_policy_error_without_code lenient codeless_policy_service sample_url
           None None _ _ (mkClientError None "malformed")).
  - vm_compute. tauto.
  - reflexivity.
  - reflexivity.
Defined.

(** X14.  A run that makes any remote call has first printed the URL, the
    bucket and the key (the key followed by a newline), and its first remote
    call is the existence query for the resolved bucket on the client built
    from the profile and the region hint.  When the console rejects one of
    the three lines, or the session or the client cannot be built, the run
    makes no remote call. *)
Theorem X14_target_printed_first :
  forall rt lib s3 url profile region c op,
    In (c, op) (calls (trace (Live.debug_s3_access rt lib s3 url profile region))) ->
    exists b k rest,
      extract_bucket_and_key lib url = Ok (b, k) /\
      trace (Live.debug_s3_access rt lib s3 url profile region) =
      Print ("[bold]Analyzing URL: " ++ url ++ "[/bold]") ::
      Print ("Bucket: " ++ b) ::
      Print ("Key: " ++ k ++ nl) ::
      Call (client (mkSession profile) "s3" region) (HeadBucket b) :: rest /\
      forallb (renders rt)
              [Print ("[bold]Analyzing URL: " ++ url ++ "[/bold]");
               Print ("Bucket: " ++ b); Print ("Key: " ++ k ++ nl)] = true /\
      session_raises rt profile = None /\
      client_raises rt (mkSession profile) "s3" region = None.
Proof.
  intros rt lib s3 url profile region c op Hin.
  destruct (extract_bucket_and_key lib url) as [[b k]|x] eqn:He.
  2:{ rewrite (live_debug_no_target rt _ _ _ _ _ _ He) in Hin. contradiction. }
  exists b, k.
  pose proof (live_debug_built rt lib s3 url profile region b k He) as Hb.
  set (c0 := client (mkSession profile) "s3" region) in *.
  destruct (live_check_bucket_exists_first rt s3 c0 b) as (te & HE & _).
  pose proof (live_debug_cases rt lib s3 url profile region b k He) as Hcases.
  cbv zeta in Hcases. fold c0 in Hcases.
  destruct Hcases
    as [[H _] | [(rest & Ht & _) | [(rest & Ht & _) | (actual & w & _ & _ & _ & Ht & _)]]].
  - rewrite H in Hin. contradiction.
  - rewrite Ht, HE. cbn [app]. eexists. split; [reflexivity|]. split; [reflexivity|].
    apply Hb. rewrite Ht, HE. cbn [app calls]. discriminate.
  - rewrite Ht, HE. cbn [app]. eexists. split; [reflexivity|]. split; [reflexivity|].
    apply Hb. rewrite Ht, HE. cbn [app calls]. discriminate.
  - rewrite Ht, HE. cbn [app]. eexists. split; [reflexivity|]. split; [reflexivity|].
    apply Hb. rewrite Ht, HE. cbn [app calls]. discriminate.
Qed.

Lemma X14_target_printed_first_witness :
  exists b k rest,
    extract_bucket_and_key lenient sample_url = Ok (b, k) /\
    trace (Live.debug_s3_access sample_runtime lenient forbidden_service sample_url
                                None None) =
    Print ("[bold]Analyzing URL: " ++ sample_url ++ "[/bold]") ::
    Print ("Bucket: " ++ b) ::
    Print ("Key: " ++ k ++ nl) ::
    Call (client (mkSession None) "s3" None) (HeadBucket b) :: rest /\
    forallb (renders sample_runtime)
            [Print ("[bold]Analyzing URL: " ++ sample_url ++ "[/bold]");
             Print ("Bucket: " ++ b); Print ("Key: " ++ k ++ nl)] = true /\
    session_raises sample_runtime None = None /\
    client_raises sample_runtime (mkSession None) "s3" None = None.
Proof.
  apply (X14_target_printed_first sample_runtime lenient forbidden_service sample_url
           None None (client (mkSession None) "s3" None) (HeadBucket "my-bucket")).
  vm_compute. tauto.
Defined.

(** X15.  Every remote call of a run is made on the client built from the
    profile and the region hint, or on a client of the same profile built
    for another region, and the client never changes silently: in the second
    case the hint was a non-empty region name [h], the client is the one
    built for a non-empty region name [a] other than [h], and the run has
    printed the warning that names [h] and [a]. *)
Theorem X15_client_change_is_announced :
  forall lib s3 url profile region c op,
    In (c, op) (calls (trace (debug_s3_access lib s3 url profile region))) ->
    c <> client (mkSession profile) "s3" region ->
    exists h a,
      region = Some h /\ h <> "" /\ a <> "" /\ a <> h /\
      c = client (mkSession profile) "s3" (Some a) /\
      In (Print ("[yellow]Warning: Specified region " ++ h ++
                 " differs from bucket region " ++ a ++ "[/yellow]"))
         (trace (debug_s3_access lib s3 url profile region)).
Proof.
  intros lib s3 url profile region c op Hin Hne.
  set (c0 := client (mkSession profile) "s3" region) in *.
  destruct (extract_bucket_and_key lib url) as [[b k]|x] eqn:He.
  2:{ rewrite (debug_s3_access_no_target _ _ _ _ _ _ He) in Hin. contradiction. }
  destruct (head_bucket s3 c0 b) as [[]|x] eqn:Hh.
  2:{ destruct (debug_s3_access_stops_at_existence _ _ _ _ _ _ _ _ He Hh) as [Hc _].
      rewrite Hc in Hin. destruct Hin as [H|[]]. injection H as H _.
      now elim Hne. }
  destruct (outcome (check_bucket_location s3 c0 b)) as [actual|x] eqn:Hl.
  2:{ rewrite (debug_s3_access_stops_at_location _ _ _ _ _ _ _ _ He Hh Hl) in Hin.
      destruct Hin as [H|[H|[]]]; injection H as H _; now elim Hne. }
  destruct (debug_s3_access_reaches_tail _ _ _ _ _ _ _ _ He Hh Hl) as (Hc & _).
  destruct (calls_probe_tail s3 (next_client profile region actual) b k) as (n & Hn & _).
  rewrite Hc, Hn in Hin.
  destruct Hin as [H|[H|Hin]]; try (injection H as H _; now elim Hne).
  apply In_firstn in Hin.
  assert (E : c = next_client profile region actual).
  { unfold probes_after_location in Hin.
    repeat (destruct Hin as [Hin|Hin]; [injection Hin as <- _; reflexivity|]).
    contradiction. }
  rewrite (debug_s3_access_trace _ _ _ _ _ _ _ _ He Hh Hl).
  unfold next_client in E. fold c0 in E.
  destruct (truthy actual && truthy region && negb (opt_eqb actual region)) eqn:Ec;
    [|now elim Hne].
  apply andb_true_iff in Ec. destruct Ec as [Ec Hd].
  apply andb_true_iff in Ec. destruct Ec as [Ta Tr].
  destruct actual as [a|]; [|discriminate]. destruct region as [h|]; [|discriminate].
  exists h, a. split; [reflexivity|].
  split; [cbn [truthy] in Tr; now apply negb_true_iff, String.eqb_neq in Tr|].
  split; [cbn [truthy] in Ta; now apply negb_true_iff, String.eqb_neq in Ta|].
  split.
  - cbn [opt_eqb] in Hd. apply negb_true_iff, String.eqb_neq in Hd. exact Hd.
  - split; [exact E|]. cbn [fmt].
    apply in_or_app. right. apply in_or_app. right. apply in_or_app. right.
    apply in_or_app. left. left. reflexivity.
Qed.

Lemma X15_client_change_is_announced_witness :
  exists h a,
    Some "us-east-1" = Some h /\ h <> "" /\ a <> "" /\ a <> h /\
    client (mkSession None) "s3" (Some "eu-west-1") =
    client (mkSession None) "s3" (Some a) /\
    In (Print ("[yellow]Warning: Specified region " ++ h ++
               " differs from bucket region " ++ a ++ "[/yellow]"))
       (trace (debug_s3_access lenient sample_service sample_url None
                               (Some "us-east-1"))).
Proof.
  apply (X15_client_change_is_announced lenient sample_service sample_url None
           (Some "us-east-1") _ (HeadObject "my-bucket" "folder/file.txt")).
  - vm_compute. tauto.
  - discriminate.
Defined.
